(** * maternal_RAG-bot: the chat backend of [main2.py]

    A shallow embedding of the request handlers of [src/main2.py]
    ([new_chat], [send_message], [get_chat], [update_chat_title],
    [delete_chat]) together with the emergency filter [is_emergency], and
    the properties of the retrieval-and-response pipeline.

    Conventions of the model.
    - A Python [str] is a sequence of code points; the embedding covers
      the code points below 256 (one [ascii] per code point), on which
      [str.lower] and [str.isspace] are the tables written out below.
    - The collection [chats] is a finite map from [ObjectId] to documents.
    - The third-party collaborators ([bson.ObjectId], the retriever, the
      chat model, the clock and the identifier generator) are the fields
      of an environment [Env]; theorems quantify over all environments.
    - A handler is a function of the environment and the current state
      to an outcome (a value or a raised exception) and the next state.
      The state also carries the trace of the calls made to the
      collaborators, so that "is not invoked" can be stated. *)

From Stdlib Require Import ZArith NArith Ascii String List Bool Lia.
From stdpp Require Import base decidable option list sorting gmap.

Import ListNotations.
Local Open Scope bool_scope.

(** ** Python strings *)

Module PyStr.

Definition str := list ascii.

(** A literal of the source. *)
Definition py (s : string) : str := list_ascii_of_string s.

(** [bool(s)]: a string is truthy when it is not empty. *)
Definition truthy (s : str) : bool :=
  match s with [] => false | _ :: _ => true end.

(** One code point of [str.lower()]: A-Z and the upper-case letters of
    the Latin-1 block (U+00C0..U+00DE but the sign U+00D7) move by 32. *)
Definition lower_char (c : ascii) : ascii :=
  let n := N_of_ascii c in
  if ((65 <=? n) && (n <=? 90)
      || (192 <=? n) && (n <=? 222) && negb (n =? 215))%N
  then ascii_of_N (n + 32) else c.

Definition lower (s : str) : str := map lower_char s.

(** [c.isspace()]: TAB..CR, FS..US, SPACE, NEL and NBSP. *)
Definition isspace (c : ascii) : bool :=
  let n := N_of_ascii c in
  ((9 <=? n) && (n <=? 13) || (28 <=? n) && (n <=? 32)
   || (n =? 133) || (n =? 160))%N.

Fixpoint lstrip (s : str) : str :=
  match s with
  | [] => []
  | c :: s' => if isspace c then lstrip s' else s
  end.

Fixpoint rstrip (s : str) : str :=
  match s with
  | [] => []
  | c :: s' =>
      match rstrip s' with
      | [] => if isspace c then [] else [c]
      | r => c :: r
      end
  end.

(** [s.strip()] *)
Definition strip (s : str) : str := rstrip (lstrip s).

(** [s.startswith(k)] *)
Fixpoint startswith (k s : str) : bool :=
  match k, s with
  | [], _ => true
  | _ :: _, [] => false
  | a :: k', b :: s' => Ascii.eqb a b && startswith k' s'
  end.

(** [k in s] on strings: [k] occurs in [s] as a contiguous run. *)
Fixpoint contains (k s : str) : bool :=
  startswith k s ||
  match s with
  | [] => false
  | _ :: s' => contains k s'
  end.

(** [sep.join(parts)] *)
Fixpoint join (sep : str) (parts : list str) : str :=
  match parts with
  | [] => []
  | [p] => p
  | p :: rest => p ++ sep ++ join sep rest
  end.

End PyStr.

Import PyStr.

(** ** The data model *)

(** [bson.ObjectId] values and [datetime] values. *)
Abbreviation ObjectId := N.
Abbreviation datetime := Z.

(** An entry of a chat's ["messages"] array:
    [{"role": "user" | "assistant", "text": ...}]. *)
Inductive Role := user | assistant.

Record Message := { role : Role; text : str }.

(** A document of the collection [chats] (its ["_id"] is the key under
    which the collection holds it). *)
Record Chat := {
  title : str;
  created_at : datetime;
  messages : list Message
}.

(** Request models. *)
Module UserInput.
Record t := { query : str }.
End UserInput.

Module TitleUpdate.
Record t := { title : str }.
End TitleUpdate.

(** What the retriever yields, and what the chat model is invoked on:
    a plain string, or the messages a [ChatPromptTemplate] formats. *)
Record Document := { page_content : str }.

Inductive PromptRole := system | human.

Inductive Prompt :=
| PromptText (s : str)
| PromptMessages (msgs : list (PromptRole * str)).

#[global] Instance PromptRole_eq_dec : EqDecision PromptRole.
Proof. solve_decision. Defined.

#[global] Instance Prompt_eq_dec : EqDecision Prompt.
Proof. solve_decision. Defined.

(** Exceptions (subclasses of [Exception]). *)
Inductive Exception :=
| HTTPException (status_code : Z) (detail : str)
| InvalidId
| TypeError
| OtherException (msg : str).

Inductive result (A : Type) :=
| Returns (a : A)
| Raises (e : Exception).
Arguments Returns {A} a.
Arguments Raises {A} e.

(** ** The collaborators *)

(** [ObjectId_parse s] is [ObjectId(s)], [None] when it raises
    [InvalidId]; [ObjectId_str] is [str(oid)]; [ObjectId_new] is the
    identifier the driver generates for an inserted document, which the
    collection does not hold yet. *)
Record Env := {
  ObjectId_parse : str -> option ObjectId;
  ObjectId_str : ObjectId -> str;
  ObjectId_new : gmap N Chat -> ObjectId;
  ObjectId_new_fresh : forall m, m !! ObjectId_new m = None;
  datetime_now : datetime;
  retriever_invoke : str -> result (list Document);
  llm_invoke : Prompt -> result str
}.

(** ** State and handlers *)

Inductive Event :=
| RetrieverInvoke (q : str)
| LlmInvoke (p : Prompt)
| LoggingError (e : Exception).

(** [chats] is the collection; [trace] lists, oldest first, the calls
    made to the retriever, the model and [logging.error] (for the last,
    the exception whose [str] was logged). *)
Record State := {
  chats : gmap N Chat;
  trace : list Event
}.

Inductive Outcome (A : Type) :=
| Return (a : A)
| Raise (e : Exception).
Arguments Return {A} a.
Arguments Raise {A} e.

Definition Handler (A : Type) : Type := Env -> State -> Outcome A * State.

Definition ret {A} (a : A) : Handler A := fun _ st => (Return a, st).

Definition raise {A} (e : Exception) : Handler A := fun _ st => (Raise e, st).

Definition bind {A B} (m : Handler A) (k : A -> Handler B) : Handler B :=
  fun env st =>
    match m env st with
    | (Return a, st') => k a env st'
    | (Raise e, st') => (Raise e, st')
    end.

(** [try: body except Exception as e: handler] *)
Definition try_except {A} (body : Handler A) (handler : Exception -> Handler A)
  : Handler A :=
  fun env st =>
    match body env st with
    | (Return a, st') => (Return a, st')
    | (Raise e, st') => handler e env st'
    end.

Notation "'let*' x ':=' m 'in' k" := (bind m (fun x => k))
  (at level 10, x name, m at level 100, k at level 200).
Notation "m ';;;' k" := (bind m (fun _ => k))
  (at level 100, k at level 200, right associativity).

(** The status code the framework answers with: 200 for a returned
    value, the code of a raised [HTTPException], 500 for any other
    exception that leaves the handler. *)
Definition status_of {A} (o : Outcome A) : Z :=
  match o with
  | Return _ => 200
  | Raise (HTTPException sc _) => sc
  | Raise _ => 500
  end.

Definition is_client_error (sc : Z) : bool := ((400 <=? sc) && (sc <? 500))%Z.
Definition is_server_error (sc : Z) : bool := ((500 <=? sc) && (sc <? 600))%Z.

(** *** Operations on the collection and on the collaborators *)

Definition log_event (ev : Event) : Handler unit :=
  fun _ st => (Return tt, {| chats := chats st; trace := trace st ++ [ev] |}).

Definition with_chats (f : gmap N Chat -> gmap N Chat) : Handler unit :=
  fun _ st => (Return tt, {| chats := f (chats st); trace := trace st |}).

(** [ObjectId(chat_id)] *)
Definition ObjectId_ (chat_id : str) : Handler ObjectId :=
  fun env st =>
    match ObjectId_parse env chat_id with
    | Some oid => (Return oid, st)
    | None => (Raise InvalidId, st)
    end.

Definition now : Handler datetime := fun env st => (Return (datetime_now env), st).

(** [chats.insert_one(doc).inserted_id] *)
Definition insert_one (doc : Chat) : Handler ObjectId :=
  fun env st =>
    let oid := ObjectId_new env (chats st) in
    (Return oid, {| chats := <[oid := doc]> (chats st); trace := trace st |}).

Definition push_message (m : Message) (c : Chat) : Chat :=
  {| title := title c; created_at := created_at c;
     messages := messages c ++ [m] |}.

Definition set_title (t : str) (c : Chat) : Chat :=
  {| title := t; created_at := created_at c; messages := messages c |}.

(** [chats.update_one({"_id": oid}, {"$push": {"messages": m}})]: without
    a document of that [_id] nothing is updated. *)
Definition update_one_push (oid : ObjectId) (m : Message) : Handler unit :=
  with_chats (alter (push_message m) oid).

(** [chats.update_one({"_id": oid}, {"$set": {"title": t}})] *)
Definition update_one_set_title (oid : ObjectId) (t : str) : Handler unit :=
  with_chats (alter (set_title t) oid).

(** [chats.find_one({"_id": oid})] *)
Definition find_one (oid : ObjectId) : Handler (option Chat) :=
  fun _ st => (Return (chats st !! oid), st).

(** [chats.delete_one({"_id": oid})] *)
Definition delete_one (oid : ObjectId) : Handler unit :=
  with_chats (delete oid).

(** [retriever.invoke(q)] *)
Definition retriever_ (q : str) : Handler (list Document) :=
  log_event (RetrieverInvoke q) ;;;
  fun env st =>
    match retriever_invoke env q with
    | Returns docs => (Return docs, st)
    | Raises e => (Raise e, st)
    end.

(** [llm.invoke(p).content] *)
Definition llm_ (p : Prompt) : Handler str :=
  log_event (LlmInvoke p) ;;;
  fun env st =>
    match llm_invoke env p with
    | Returns content => (Return content, st)
    | Raises e => (Raise e, st)
    end.

(** [logging.error(str(e))] *)
Definition logging_error (e : Exception) : Handler unit :=
  log_event (LoggingError e).

(** ** The program *)

Definition nl : str := [ascii_of_nat 10].

(** [qa_prompt.format_messages(context=..., question=...)] *)
Definition qa_system : str :=
  py "You are an AI assistant specialized in maternal health education. "
  ++ py "Provide general, educational information only. "
  ++ py " If the answer is partially available across multiple documents, you MAY summarize and combine information logically."
  ++ py "If the answer is not clearly stated in the documents, provide a GENERAL EDUCATIONAL explanation and clearly mention that it is general information."
  ++ py " Do NOT provide diagnosis, treatment, prescriptions, or emergency medical advice."
  ++ py " Do NOT invent facts that contradict the documents."
  ++ py "Do NOT give diagnosis, treatment, or emergency instructions. "
  ++ py "If information is missing, give general educational guidance.".

Definition qa_prompt_format_messages (context question : str) : Prompt :=
  PromptMessages
    [ (system, qa_system);
      (human, py "Context:" ++ nl ++ context ++ nl ++ nl
              ++ py "Question:" ++ nl ++ question) ].

Definition EMERGENCY_KEYWORDS : list str :=
  [ py "heavy bleeding"; py "severe pain"; py "unconscious";
    py "seizure"; py "cannot breathe"; py "emergency"; py "miscarriage" ].

Definition is_emergency (q : str) : bool :=
  existsb (fun k => contains k (lower q)) EMERGENCY_KEYWORDS.

Definition new_chat_doc (t : datetime) : Chat :=
  {| title := py "New Chat"; created_at := t; messages := [] |}.

(** [POST /chat/new] *)
Definition new_chat : Handler str :=
  let* t := now in
  let* inserted_id := insert_one (new_chat_doc t) in
  fun env => ret (ObjectId_str env inserted_id) env.

Definition emergency_answer : str :=
  py "This may be a medical emergency. "
  ++ py "Please seek immediate medical care or consult a healthcare professional.".

Definition apology_answer : str :=
  py "Sorry, I couldn't process your question right now. "
  ++ py "Please try again.".

Definition fallback_prompt (query : str) : Prompt :=
  PromptText (py "Provide general educational information about: " ++ query).

(** [context = "\n\n".join(d.page_content for d in docs)] *)
Definition context_of (docs : list Document) : str :=
  join (nl ++ nl) (map page_content docs).

(** The [try] block of [send_message] with its handler. *)
Definition retrieve_and_answer (query : str) : Handler str :=
  try_except
    (let* docs := retriever_ query in
     let context := context_of docs in
     if truthy (strip context)
     then llm_ (qa_prompt_format_messages context query)
     else
       (* fallback: general maternal health education *)
       llm_ (fallback_prompt query))
    (fun e =>
       logging_error e ;;;
       ret apology_answer).

(** The block "Create or validate chat" of [send_message]. *)
Definition create_or_validate (chat_id : str) : Handler ObjectId :=
  if negb (truthy chat_id)
     || bool_decide (chat_id ∈ [py "null"; py "undefined"])
  then
    let* t := now in
    insert_one (new_chat_doc t)
  else
    try_except (ObjectId_ chat_id)
      (fun _ => raise (HTTPException 400 (py "Invalid chat ID"))).

(** The block "Emergency check" of [send_message]. *)
Definition emergency_check (query : str) : Handler str :=
  if is_emergency query && negb (contains (py "what") (lower query))
  then ret emergency_answer
  else retrieve_and_answer query.

(** [POST /chat/{chat_id}/send] (the rate limiter in front of it is not
    part of the model). *)
Definition send_message (chat_id : str) (u : UserInput.t) : Handler str :=
  let query := strip (UserInput.query u) in
  let* oid := create_or_validate chat_id in
  (* Save user message *)
  update_one_push oid {| role := user; text := query |} ;;;
  let* answer := emergency_check query in
  (* Save assistant message *)
  update_one_push oid {| role := assistant; text := answer |} ;;;
  ret answer.

(** [GET /chat/{chat_id}]: the document with its [_id] as a string. *)
Definition get_chat (chat_id : str) : Handler (str * Chat) :=
  let* oid := ObjectId_ chat_id in
  let* chat := find_one oid in
  match chat with
  | None => raise TypeError
  | Some c => fun env => ret (ObjectId_str env oid, c) env
  end.

(** [PUT /chat/{chat_id}/title] *)
Definition update_chat_title (chat_id : str) (t : TitleUpdate.t) : Handler str :=
  let* oid := ObjectId_ chat_id in
  update_one_set_title oid (TitleUpdate.title t) ;;;
  ret (py "updated").

(** [DELETE /chat/{chat_id}] *)
Definition delete_chat (chat_id : str) : Handler str :=
  let* oid := ObjectId_ chat_id in
  delete_one oid ;;;
  ret (py "deleted").

(** ** A concrete environment

    Identifiers are written as 24 hexadecimal digits; the retriever
    knows one passage and fails on the query ["crash"]; the model
    answers every prompt with the same text and fails on the plain
    prompt for ["boom"]. *)
Module Demo.

Definition hex_digit (c : ascii) : option N :=
  let n := N_of_ascii c in
  if ((48 <=? n) && (n <=? 57))%N then Some (n - 48)%N
  else if ((97 <=? n) && (n <=? 102))%N then Some (n - 87)%N
  else if ((65 <=? n) && (n <=? 70))%N then Some (n - 55)%N
  else None.

Fixpoint hex_value (acc : N) (s : str) : option N :=
  match s with
  | [] => Some acc
  | c :: s' =>
      match hex_digit c with
      | Some d => hex_value (16 * acc + d)%N s'
      | None => None
      end
  end.

Definition parse (s : str) : option ObjectId :=
  if (length s =? 24)%nat then hex_value 0%N s else None.

Definition hex_char (d : N) : ascii :=
  if (d <? 10)%N then ascii_of_N (48 + d) else ascii_of_N (87 + d).

Fixpoint hex_digits (n : nat) (v : N) (acc : str) : str :=
  match n with
  | O => acc
  | S n' => hex_digits n' (v / 16)%N (hex_char (v mod 16)%N :: acc)
  end.

Definition to_str (oid : ObjectId) : str := hex_digits 24 oid [].

Definition new_id (m : gmap N Chat) : N := fresh (dom m).

Definition retriever (q : str) : result (list Document) :=
  if bool_decide (q = py "crash") then Raises (OtherException (py "index unavailable"))
  else if bool_decide (q = py "nothing") then Returns []
  else if bool_decide (q = py "blank") then
    Returns [ {| page_content := py "  " |}; {| page_content := nl |} ]
  else Returns [ {| page_content := py "Iron needs rise in pregnancy." |} ].

Definition llm (p : Prompt) : result str :=
  if bool_decide (p = fallback_prompt (py "boom"))
  then Raises (OtherException (py "model call failed"))
  else Returns (py "General information.").

End Demo.

Definition demo_env : Env :=
  {| ObjectId_parse := Demo.parse;
     ObjectId_str := Demo.to_str;
     ObjectId_new := Demo.new_id;
     ObjectId_new_fresh :=
       ltac:(intros m; unfold Demo.new_id;
             apply (not_elem_of_dom (D := gset N)), is_fresh);
     datetime_now := 1762214400%Z;
     retriever_invoke := Demo.retriever;
     llm_invoke := Demo.llm |}.

Definition st0 : State := {| chats := ∅; trace := [] |}.

(** ** Vocabulary of the statements *)

(** [k] occurs in [s] as a contiguous run of characters. *)
Definition occurs (k s : str) : Prop := exists a b, s = a ++ k ++ b.

(** A literal whose first and last characters are not white space. *)
Definition begins_nonspace (k : str) : bool :=
  match k with
  | [] => false
  | c :: _ => negb (isspace c)
  end.

Fixpoint ends_nonspace (k : str) : bool :=
  match k with
  | [] => false
  | [c] => negb (isspace c)
  | _ :: k' => ends_nonspace k'
  end.

(** The values of [chat_id] that stand for "no identifier". *)
Definition sentinel (chat_id : str) : Prop :=
  chat_id = [] \/ chat_id = py "null" \/ chat_id = py "undefined".

(** The request reaches the pipeline: its [chat_id] is a sentinel or
    parses as an identifier. *)
Definition accepted (env : Env) (chat_id : str) : Prop :=
  sentinel chat_id \/ is_Some (ObjectId_parse env chat_id).

(** The condition under which [send_message] answers with the safety
    message. *)
Definition emergency_branch (query : str) : bool :=
  is_emergency query && negb (contains (py "what") (lower query)).

(** The prompt sent to the model for the retrieved documents. *)
Definition prompt_for (query : str) (docs : list Document) : Prompt :=
  if forallb isspace (context_of docs)
  then fallback_prompt query
  else qa_prompt_format_messages (context_of docs) query.

(** The session a call of [send_message] works on, with its document
    before the messages are pushed: the one just created for a sentinel,
    else the one found under the parsed identifier. *)
Definition addressed_session (env : Env) (st : State) (chat_id : str)
  : option (ObjectId * Chat) :=
  if bool_decide (sentinel chat_id)
  then Some (ObjectId_new env (chats st), new_chat_doc (datetime_now env))
  else
    match ObjectId_parse env chat_id with
    | Some oid =>
        match chats st !! oid with
        | Some c => Some (oid, c)
        | None => None
        end
    | None => None
    end.

(** Both messages of one exchange pushed on a document. *)
Definition with_exchange (query answer : str) (c : Chat) : Chat :=
  {| title := title c; created_at := created_at c;
     messages := messages c ++ [ {| role := user; text := query |};
                                 {| role := assistant; text := answer |} ] |}.

(** What the [try] block yields for a query: the answer, and the calls
    it makes in order. *)
Definition retrieval_outcome (env : Env) (query : str) : str * list Event :=
  match retriever_invoke env query with
  | Raises e => (apology_answer, [RetrieverInvoke query; LoggingError e])
  | Returns docs =>
      let p := prompt_for query docs in
      match llm_invoke env p with
      | Returns content => (content, [RetrieverInvoke query; LlmInvoke p])
      | Raises e =>
          (apology_answer, [RetrieverInvoke query; LlmInvoke p; LoggingError e])
      end
  end.

Definition send_outcome (env : Env) (query : str) : str * list Event :=
  if emergency_branch query then (emergency_answer, [])
  else retrieval_outcome env query.

(** An event that is a call to the retriever or to the model. *)
Definition is_invocation (ev : Event) : bool :=
  match ev with
  | RetrieverInvoke _ | LlmInvoke _ => true
  | LoggingError _ => false
  end.

(** ** Listing the sessions *)

(** The order of [.sort("created_at", -1)]: the later document first. *)
Definition newer_first (a b : ObjectId * Chat) : Prop :=
  (created_at b.2 <= created_at a.2)%Z.

#[global] Instance newer_first_dec : RelDecision newer_first.
Proof. intros a b. unfold newer_first. apply _. Defined.

(** [chats.find().sort("created_at", -1)]. The store promises no order
    among documents of equal [created_at]; the model takes the one a
    merge sort gives. *)
Definition find_sort_created_at (m : gmap N Chat) : list (ObjectId * Chat) :=
  merge_sort newer_first (map_to_list m).

(** [GET /chats]: [(chat_id, title)] for every document. Every document
    of the model has a title, so the default of [c.get("title",
    "Untitled")] is never taken. *)
Definition list_chats : Handler (list (str * str)) :=
  fun env st =>
    (Return (map (fun c => (ObjectId_str env c.1, title c.2))
               (find_sort_created_at (chats st))),
     st).

(** ** Start-up: loading the documents *)

(** [s.endswith(suffix)] *)
Definition endswith (suffix s : str) : bool :=
  startswith (rev suffix) (rev s).

(** An entry of [os.listdir(PDF_DIR)] with what [os.path.getsize(path)]
    and [PyPDFLoader(path).load()] give for it; either call may raise
    (the first on an entry that cannot be examined, such as a dangling
    link). *)
Record DirEntry := {
  file : str;
  getsize : result N;
  PyPDFLoader_load : result (list Document)
}.

(** The lines the loop prints. *)
Inductive Printed :=
| Loaded (f : str)
| Skipped (f : str) (e : Exception).

(** The loop over the directory, from [all_docs] and the lines printed
    so far: [all_docs] at its end, or the exception that leaves it
    ([os.path.getsize] is called outside the [try]), with the lines
    printed. *)
Fixpoint load_loop (listdir : list DirEntry) (all_docs : list Document)
    (out : list Printed) : result (list Document) * list Printed :=
  match listdir with
  | [] => (Returns all_docs, out)
  | f :: rest =>
      if negb (endswith (py ".pdf") (file f)) then load_loop rest all_docs out
      else
        match getsize f with
        | Raises e => (Raises e, out)
        | Returns size =>
            if (size <? 1000)%N then load_loop rest all_docs out
            else
              match PyPDFLoader_load f with
              | Returns docs =>
                  load_loop rest (all_docs ++ docs) (out ++ [Loaded (file f)])
              | Raises e =>
                  load_loop rest all_docs (out ++ [Skipped (file f) e])
              end
        end
  end.

Definition load_all (listdir : list DirEntry)
  : result (list Document) * list Printed :=
  load_loop listdir [] [].

(** How the block "LOAD & BUILD VECTOR STORE" goes on: an exception
    leaves it, it raises its [RuntimeError], it hands the documents to
    the splitter and the index builder, or it loads the saved index
    (what the splitter, the index builder and the index loader then do
    is theirs). *)
Inductive Startup :=
| Uncaught (e : Exception)
| RuntimeError (msg : str)
| FromDocuments (all_docs : list Document)
| LoadLocal.

(** The block, from [os.path.exists(FAISS_DIR)] and what
    [os.listdir(PDF_DIR)] gives, which may raise too. *)
Definition load_or_build (faiss_dir_exists : bool)
    (listdir : result (list DirEntry)) : Startup * list Printed :=
  if negb faiss_dir_exists then
    match listdir with
    | Raises e => (Uncaught e, [])
    | Returns entries =>
        match load_all entries with
        | (Raises e, out) => (Uncaught e, out)
        | (Returns [], out) => (RuntimeError (py "No valid PDFs found."), out)
        | (Returns all_docs, out) => (FromDocuments all_docs, out)
        end
    end
  else (LoadLocal, []).

(** ** More vocabulary *)

(** A log made of exchanges: a user message, then an assistant message,
    and so on. *)
Fixpoint alternating (l : list Message) : bool :=
  match l with
  | [] => true
  | m1 :: m2 :: l' =>
      match role m1, role m2 with
      | user, assistant => alternating l'
      | _, _ => false
      end
  | _ => false
  end.

(** A directory entry the loop takes documents from. *)
Definition contributes (f : DirEntry) (docs : list Document) : Prop :=
  endswith (py ".pdf") (file f) = true
  /\ (exists size, getsize f = Returns size /\ (1000 <= size)%N)
  /\ PyPDFLoader_load f = Returns docs.

(** A directory entry on which the loop is left by an exception. *)
Definition stat_fails (f : DirEntry) (e : Exception) : Prop :=
  endswith (py ".pdf") (file f) = true /\ getsize f = Raises e.

(** The result of the loop on a listing followed by that on the rest. *)
Definition then_load (ra rb : result (list Document) * list Printed)
  : result (list Document) * list Printed :=
  match ra with
  | (Raises e, oa) => (Raises e, oa)
  | (Returns da, oa) =>
      match rb with
      | (Returns db, ob) => (Returns (da ++ db), oa ++ ob)
      | (Raises e, ob) => (Raises e, oa ++ ob)
      end
  end.

(** The number of calls to the retriever and to the model in a trace. *)
Definition count_retriever (evs : list Event) : nat :=
  length (List.filter (fun ev => match ev with RetrieverInvoke _ => true | _ => false end) evs).

Definition count_llm (evs : list Event) : nat :=
  length (List.filter (fun ev => match ev with LlmInvoke _ => true | _ => false end) evs).


(** Every stored log is made of exchanges. *)
Definition logs_alternate (st : State) : Prop :=
  forall oid c, chats st !! oid = Some c -> alternating (messages c) = true.

(** * Properties *)

(** ** Strings *)

Example lower_ex : lower (py "What IS Miscarriage?") = py "what is miscarriage?".
Proof. reflexivity. Qed.

Example strip_ex : strip (nl ++ py "  heavy bleeding " ++ nl) = py "heavy bleeding".
Proof. reflexivity. Qed.

Example contains_ex :
  contains (py "what") (py "somewhat") = true
  /\ contains (py "what") (py "wha t") = false
  /\ contains [] [] = true.
Proof. repeat split. Qed.

Example join_ex : join (py "--") [py "a"; py "b"; py "c"] = py "a--b--c".
Proof. reflexivity. Qed.

Section StringFacts.

Implicit Types (c : ascii) (k s : str).

Lemma isspace_lower_char c : isspace (lower_char c) = isspace c.
Proof. destruct c as [[] [] [] [] [] [] [] []]; reflexivity. Qed.

Lemma ascii_eqb_true a b : Ascii.eqb a b = true <-> a = b.
Proof. apply Ascii.eqb_eq. Qed.

Lemma startswith_spec k s : startswith k s = true <-> exists b, s = k ++ b.
Proof.
  revert s. induction k as [|a k IH]; intros s; simpl.
  - split; [intros _; now exists s | reflexivity].
  - destruct s as [|b s].
    + split; [discriminate | intros [t Ht]; discriminate].
    + rewrite andb_true_iff, ascii_eqb_true, IH. split.
      * intros [-> [t ->]]. now exists t.
      * intros [t Ht]. injection Ht as -> ->. split; [reflexivity | now exists t].
Qed.

Lemma contains_spec k s : contains k s = true <-> occurs k s.
Proof.
  unfold occurs. induction s as [|c s IH]; simpl.
  - rewrite orb_false_r, startswith_spec. split.
    + intros [b Hb]. now exists [], b.
    + intros (a & b & H). symmetry in H.
      apply app_eq_nil in H as [-> H]. apply app_eq_nil in H as [-> ->].
      now exists [].
  - rewrite orb_true_iff, startswith_spec, IH. split.
    + intros [[b Hb] | (a & b & ->)].
      * now exists [], b.
      * now exists (c :: a), b.
    + intros (a & b & H). destruct a as [|c' a].
      * left. now exists b.
      * right. injection H as -> ->. now exists a, b.
Qed.

(** *** [lstrip], [rstrip], [strip] *)

Lemma rstrip_cons c s :
  rstrip (c :: s) =
  if isspace c && negb (truthy (rstrip s)) then [] else c :: rstrip s.
Proof. simpl. destruct (rstrip s), (isspace c); reflexivity. Qed.

Lemma lstrip_idem s : lstrip (lstrip s) = lstrip s.
Proof.
  induction s as [|c s IH]; simpl; [reflexivity|].
  destruct (isspace c) eqn:E; [exact IH | simpl; now rewrite E].
Qed.

Lemma rstrip_idem s : rstrip (rstrip s) = rstrip s.
Proof.
  induction s as [|c s IH]; [reflexivity|].
  rewrite rstrip_cons.
  destruct (isspace c && negb (truthy (rstrip s))) eqn:E; [reflexivity|].
  rewrite rstrip_cons, IH, E. reflexivity.
Qed.

Lemma lstrip_cons c s : lstrip (c :: s) = if isspace c then lstrip s else c :: s.
Proof. reflexivity. Qed.

Lemma lstrip_rstrip s : lstrip (rstrip s) = rstrip (lstrip s).
Proof.
  induction s as [|c s IH]; [reflexivity|].
  rewrite rstrip_cons, (lstrip_cons c s).
  destruct (isspace c) eqn:E; simpl andb.
  - destruct (rstrip s) eqn:R; simpl negb; cbv iota.
    + rewrite <- IH. reflexivity.
    + rewrite lstrip_cons, E. exact IH.
  - cbv iota. rewrite lstrip_cons, E, rstrip_cons, E. reflexivity.
Qed.

Lemma strip_idem s : strip (strip s) = strip s.
Proof.
  unfold strip.
  now rewrite lstrip_rstrip, rstrip_idem, lstrip_idem.
Qed.

Lemma lstrip_nil_iff s : lstrip s = [] <-> forallb isspace s = true.
Proof.
  induction s as [|c s IH]; simpl; [tauto|].
  destruct (isspace c); simpl; [exact IH|]. split; discriminate.
Qed.

Lemma rstrip_nil_iff s : rstrip s = [] <-> forallb isspace s = true.
Proof.
  induction s as [|c s IH]; [simpl; tauto|].
  rewrite rstrip_cons. simpl forallb.
  destruct (isspace c); simpl.
  - rewrite <- IH. destruct (rstrip s); simpl; split; congruence.
  - split; discriminate.
Qed.

(** A string strips to nothing exactly when it is white space only. *)
Lemma strip_nil_iff s : strip s = [] <-> forallb isspace s = true.
Proof.
  unfold strip. rewrite <- lstrip_rstrip. rewrite lstrip_nil_iff.
  split; intros H.
  - rewrite <- rstrip_nil_iff, <- rstrip_idem. now apply rstrip_nil_iff.
  - apply rstrip_nil_iff in H. now rewrite H.
Qed.

Lemma truthy_strip s : truthy (strip s) = negb (forallb isspace s).
Proof.
  destruct (forallb isspace s) eqn:E.
  - apply strip_nil_iff in E. now rewrite E.
  - destruct (strip s) eqn:S; [|reflexivity].
    apply strip_nil_iff in S. congruence.
Qed.

(** *** Stripping does not change what occurs in a string *)

Lemma ends_nonspace_cons a k :
  ends_nonspace (a :: k) =
  match k with [] => negb (isspace a) | _ => ends_nonspace k end.
Proof. reflexivity. Qed.

Lemma startswith_rstrip k s :
  ends_nonspace k = true -> startswith k (rstrip s) = startswith k s.
Proof.
  revert k. induction s as [|c s IH]; intros k Hk; [reflexivity|].
  destruct k as [|a k]; [discriminate|].
  rewrite ends_nonspace_cons in Hk. rewrite rstrip_cons.
  destruct (isspace c && negb (truthy (rstrip s))) eqn:E.
  - apply andb_true_iff in E as [Ec Er].
    simpl. destruct k as [|a' k].
    + destruct (Ascii.eqb a c) eqn:Eac; [|reflexivity].
      apply ascii_eqb_true in Eac as ->. rewrite Ec in Hk. discriminate.
    + rewrite <- (IH (a' :: k) Hk).
      destruct (rstrip s); [|discriminate].
      now rewrite andb_false_r.
  - simpl. destruct k as [|a' k]; [reflexivity|].
    now rewrite (IH (a' :: k) Hk).
Qed.

Lemma contains_rstrip k s :
  ends_nonspace k = true -> contains k (rstrip s) = contains k s.
Proof.
  intros Hk. induction s as [|c s IH]; [reflexivity|].
  pose proof (startswith_rstrip k (c :: s) Hk) as Hs.
  rewrite rstrip_cons in *.
  destruct (isspace c && negb (truthy (rstrip s))) eqn:E.
  - apply andb_true_iff in E as [_ Er].
    destruct (rstrip s); [|discriminate].
    simpl contains at 2. rewrite <- Hs, <- IH. simpl.
    now destruct (startswith k []).
  - simpl contains. now rewrite Hs, IH.
Qed.

Lemma contains_lstrip k s :
  begins_nonspace k = true -> contains k (lstrip s) = contains k s.
Proof.
  intros Hk. destruct k as [|a k]; [discriminate|]. simpl in Hk.
  induction s as [|c s IH]; [reflexivity|].
  rewrite lstrip_cons. destruct (isspace c) eqn:Ec; [|reflexivity].
  rewrite IH. simpl.
  destruct (Ascii.eqb a c) eqn:Eac; [|reflexivity].
  apply ascii_eqb_true in Eac as ->. rewrite Ec in Hk. discriminate.
Qed.

Lemma contains_strip k s :
  begins_nonspace k = true -> ends_nonspace k = true ->
  contains k (strip s) = contains k s.
Proof.
  intros Hb He. unfold strip.
  now rewrite contains_rstrip, contains_lstrip.
Qed.

(** *** [lower] and [strip] commute *)

Lemma lower_lstrip s : lower (lstrip s) = lstrip (lower s).
Proof.
  induction s as [|c s IH]; [reflexivity|].
  unfold lower in *. simpl. rewrite isspace_lower_char.
  destruct (isspace c); [exact IH | reflexivity].
Qed.

Lemma lower_rstrip s : lower (rstrip s) = rstrip (lower s).
Proof.
  induction s as [|c s IH]; [reflexivity|].
  unfold lower in *. rewrite map_cons, !rstrip_cons, <- IH, isspace_lower_char.
  destruct (rstrip s), (isspace c); reflexivity.
Qed.

Lemma lower_strip s : lower (strip s) = strip (lower s).
Proof. unfold strip. now rewrite lower_rstrip, lower_lstrip. Qed.

Lemma contains_lower_strip k s :
  begins_nonspace k = true -> ends_nonspace k = true ->
  contains k (lower (strip s)) = contains k (lower s).
Proof. intros Hb He. rewrite lower_strip. now apply contains_strip. Qed.

Lemma is_emergency_strip s : is_emergency (strip s) = is_emergency s.
Proof.
  unfold is_emergency, EMERGENCY_KEYWORDS. simpl existsb.
  now rewrite !contains_lower_strip.
Qed.

Lemma is_emergency_spec s :
  is_emergency s = true <->
  exists k, In k EMERGENCY_KEYWORDS /\ occurs k (lower s).
Proof.
  unfold is_emergency. rewrite existsb_exists.
  split; intros (k & Hin & Hk); exists k; (split; [exact Hin|]);
    now apply contains_spec.
Qed.

Lemma emergency_branch_strip s : emergency_branch (strip s) = emergency_branch s.
Proof.
  unfold emergency_branch.
  now rewrite is_emergency_strip, contains_lower_strip.
Qed.

(** *** What [strip] removes *)

Lemma lstrip_app_space (w x : str) :
  forallb isspace w = true -> lstrip (w ++ x) = lstrip x.
Proof.
  induction w as [|c w IH]; simpl; [reflexivity|].
  destruct (isspace c); simpl; [exact IH | discriminate].
Qed.

Lemma rstrip_app_space (x w : str) :
  forallb isspace w = true -> rstrip (x ++ w) = rstrip x.
Proof.
  intros Hw. induction x as [|c x IH].
  - simpl. now apply rstrip_nil_iff.
  - rewrite <- app_comm_cons, !rstrip_cons, IH. reflexivity.
Qed.

(** White space around a text does not change what it strips to. *)
Lemma strip_surround (lead core trail : str) :
  forallb isspace lead = true -> forallb isspace trail = true ->
  strip (lead ++ core ++ trail) = strip core.
Proof.
  intros Hl Ht. unfold strip.
  rewrite (lstrip_app_space _ _ Hl), <- !lstrip_rstrip.
  now rewrite (rstrip_app_space _ _ Ht).
Qed.

Lemma lstrip_decompose (x : str) :
  exists lead, x = lead ++ lstrip x /\ forallb isspace lead = true.
Proof.
  induction x as [|c x (lead & IH & Hl)].
  - now exists [].
  - rewrite lstrip_cons. destruct (isspace c) eqn:E.
    + exists (c :: lead). simpl. rewrite E, Hl. split; [now f_equal | reflexivity].
    + now exists [].
Qed.

Lemma rstrip_decompose (x : str) :
  exists trail, x = rstrip x ++ trail /\ forallb isspace trail = true.
Proof.
  induction x as [|c x (trail & IH & Ht)].
  - now exists [].
  - rewrite rstrip_cons.
    destruct (isspace c && negb (truthy (rstrip x))) eqn:E.
    + apply andb_true_iff in E as [Ec Er].
      exists (c :: x). split; [reflexivity|]. simpl. rewrite Ec. simpl.
      apply rstrip_nil_iff. now destruct (rstrip x).
    + exists trail. split; [|exact Ht]. simpl. now f_equal.
Qed.

(** A text is white space, what it strips to, white space. *)
Lemma strip_decompose (x : str) :
  exists lead trail,
    x = lead ++ strip x ++ trail
    /\ forallb isspace lead = true /\ forallb isspace trail = true.
Proof.
  destruct (lstrip_decompose x) as (lead & Hx & Hl).
  destruct (rstrip_decompose (lstrip x)) as (trail & Hy & Ht).
  exists lead, trail. unfold strip. now rewrite <- Hy, <- Hx.
Qed.

Lemma lstrip_no_leading (x : str) c rest :
  lstrip x = c :: rest -> isspace c = false.
Proof.
  induction x as [|c' x IH]; simpl; [discriminate|].
  destruct (isspace c') eqn:E; [exact IH | now intros [= <- _]].
Qed.

Lemma rstrip_no_trailing (x : str) init c :
  rstrip x = init ++ [c] -> isspace c = false.
Proof.
  revert init. induction x as [|c' x IH]; intros init.
  - destruct init; discriminate.
  - rewrite rstrip_cons.
    destruct (isspace c' && negb (truthy (rstrip x))) eqn:E.
    + destruct init; discriminate.
    + destruct init as [|i init]; simpl.
      * intros [= -> Hr]. rewrite Hr in E. simpl in E.
        now rewrite andb_true_r in E.
      * intros [= _ Hr]. now apply (IH init).
Qed.

(** What a text strips to neither starts nor ends with white space. *)
Lemma strip_no_leading (x : str) c rest :
  strip x = c :: rest -> isspace c = false.
Proof. unfold strip. rewrite <- lstrip_rstrip. apply lstrip_no_leading. Qed.

Lemma strip_no_trailing (x : str) init c :
  strip x = init ++ [c] -> isspace c = false.
Proof. unfold strip. apply rstrip_no_trailing. Qed.

(** *** [join] *)

Lemma join_cons2 (sep p q : str) (ps : list str) :
  join sep (p :: q :: ps) = p ++ sep ++ join sep (q :: ps).
Proof. reflexivity. Qed.

Lemma forallb_isspace_join (ps : list str) :
  forallb isspace (join (nl ++ nl) ps) = forallb (forallb isspace) ps.
Proof.
  induction ps as [|p [|q ps] IH].
  - reflexivity.
  - simpl. now rewrite andb_true_r.
  - rewrite join_cons2, !forallb_app, IH. reflexivity.
Qed.

Lemma string_of_list_ascii_app (a b : str) :
  string_of_list_ascii (a ++ b)
  = (string_of_list_ascii a ++ string_of_list_ascii b)%string.
Proof. induction a as [|c a IH]; simpl; [reflexivity | now rewrite IH]. Qed.

(** [join] is the [concat] of the Standard Library's strings. *)
Lemma join_concat (sep : str) (ps : list str) :
  join sep ps
  = list_ascii_of_string
      (String.concat (string_of_list_ascii sep) (map string_of_list_ascii ps)).
Proof.
  rewrite <- (list_ascii_of_string_of_list_ascii (join sep ps)). f_equal.
  induction ps as [|p [|q ps] IH].
  - reflexivity.
  - reflexivity.
  - rewrite join_cons2, !string_of_list_ascii_app, IH. reflexivity.
Qed.

End StringFacts.

(** ** The handlers, step by step *)

Section HandlerFacts.

Variable env : Env.

Implicit Types (st : State) (chat_id query : str) (oid : ObjectId).

Lemma sentinel_test chat_id :
  negb (truthy chat_id) || bool_decide (chat_id ∈ [py "null"; py "undefined"]) = true
  <-> sentinel chat_id.
Proof.
  unfold sentinel. rewrite orb_true_iff, bool_decide_eq_true.
  rewrite !elem_of_cons, elem_of_nil. destruct chat_id; simpl; split.
  - tauto.
  - tauto.
  - intros [H | [H | [H | []]]]; [discriminate | tauto | tauto].
  - intros [H | [H | H]]; [discriminate | tauto | tauto].
Qed.

Lemma create_or_validate_sentinel chat_id st :
  sentinel chat_id ->
  create_or_validate chat_id env st =
  (Return (ObjectId_new env (chats st)),
   {| chats := <[ObjectId_new env (chats st) := new_chat_doc (datetime_now env)]> (chats st);
      trace := trace st |}).
Proof.
  intros H. apply sentinel_test in H.
  unfold create_or_validate. rewrite H. reflexivity.
Qed.

Lemma create_or_validate_parse chat_id st :
  ~ sentinel chat_id ->
  create_or_validate chat_id env st =
  match ObjectId_parse env chat_id with
  | Some oid => (Return oid, st)
  | None => (Raise (HTTPException 400 (py "Invalid chat ID")), st)
  end.
Proof.
  intros H. rewrite <- sentinel_test in H. apply not_true_is_false in H.
  unfold create_or_validate. rewrite H.
  unfold try_except, ObjectId_. now destruct (ObjectId_parse env chat_id).
Qed.

Lemma retrieve_and_answer_eq query st :
  retrieve_and_answer query env st =
  (Return (retrieval_outcome env query).1,
   {| chats := chats st; trace := trace st ++ (retrieval_outcome env query).2 |}).
Proof.
  unfold retrieve_and_answer, retrieval_outcome, prompt_for, try_except,
    retriever_, llm_, logging_error, log_event, bind, ret.
  simpl. destruct (retriever_invoke env query) as [docs|e]; simpl.
  - rewrite truthy_strip.
    destruct (forallb isspace (context_of docs)); simpl;
      match goal with |- context [llm_invoke env ?p] =>
        destruct (llm_invoke env p) end; simpl;
      rewrite <- ?app_assoc; reflexivity.
  - rewrite <- app_assoc. reflexivity.
Qed.

Lemma emergency_check_eq query st :
  emergency_check query env st =
  (Return (send_outcome env query).1,
   {| chats := chats st; trace := trace st ++ (send_outcome env query).2 |}).
Proof.
  unfold emergency_check, send_outcome. fold (emergency_branch query).
  destruct (emergency_branch query).
  - unfold ret. simpl. rewrite app_nil_r. now destruct st.
  - apply retrieve_and_answer_eq.
Qed.

(** The whole of [send_message] once the identifier is settled. *)
Lemma send_message_eq chat_id u st oid st1 :
  create_or_validate chat_id env st = (Return oid, st1) ->
  let query := strip (UserInput.query u) in
  let r := send_outcome env query in
  send_message chat_id u env st =
  (Return r.1,
   {| chats :=
        alter (push_message {| role := assistant; text := r.1 |}) oid
          (alter (push_message {| role := user; text := query |}) oid (chats st1));
      trace := trace st1 ++ r.2 |}).
Proof.
  intros H query r. unfold send_message. fold query.
  unfold bind at 1. rewrite H.
  unfold bind, update_one_push, with_chats, ret.
  rewrite emergency_check_eq. reflexivity.
Qed.

Lemma send_message_rejected chat_id u st e st1 :
  create_or_validate chat_id env st = (Raise e, st1) ->
  send_message chat_id u env st = (Raise e, st1).
Proof. intros H. unfold send_message, bind at 1. now rewrite H. Qed.

Lemma alter_Some (f : Chat -> Chat) oid (m : gmap N Chat) c :
  m !! oid = Some c -> alter f oid m = <[oid := f c]> m.
Proof.
  intros H. apply map_eq. intros j.
  rewrite lookup_alter, lookup_insert.
  destruct (decide (oid = j)) as [<-|]; [now rewrite H | reflexivity].
Qed.

Lemma alter_None (f : Chat -> Chat) oid (m : gmap N Chat) :
  m !! oid = None -> alter f oid m = m.
Proof.
  intros H. apply map_eq. intros j.
  rewrite lookup_alter.
  destruct (decide (oid = j)) as [<-|]; [now rewrite H | reflexivity].
Qed.

Lemma exchange_existing (m : gmap N Chat) oid c query answer :
  m !! oid = Some c ->
  alter (push_message {| role := assistant; text := answer |}) oid
    (alter (push_message {| role := user; text := query |}) oid m)
  = <[oid := with_exchange query answer c]> m.
Proof.
  intros H. rewrite (alter_Some _ _ _ _ H), alter_insert_eq.
  unfold with_exchange, push_message. simpl. rewrite <- app_assoc. reflexivity.
Qed.

Lemma exchange_absent (m : gmap N Chat) oid query answer :
  m !! oid = None ->
  alter (push_message {| role := assistant; text := answer |}) oid
    (alter (push_message {| role := user; text := query |}) oid m)
  = m.
Proof. intros H. rewrite (alter_None _ _ _ H). now apply alter_None. Qed.

Lemma accepted_cases chat_id :
  accepted env chat_id ->
  sentinel chat_id
  \/ (~ sentinel chat_id /\ exists oid, ObjectId_parse env chat_id = Some oid).
Proof.
  intros H. destruct (decide (sentinel chat_id)) as [Hs|Hs]; [now left|].
  right. split; [exact Hs|]. destruct H as [H|[oid H]]; [contradiction|].
  now exists oid.
Qed.

Lemma addressed_session_sentinel chat_id st :
  sentinel chat_id ->
  addressed_session env st chat_id =
  Some (ObjectId_new env (chats st), new_chat_doc (datetime_now env)).
Proof.
  intros H. unfold addressed_session. now rewrite bool_decide_eq_true_2.
Qed.

Lemma addressed_session_parsed chat_id st oid :
  ~ sentinel chat_id -> ObjectId_parse env chat_id = Some oid ->
  addressed_session env st chat_id =
  match chats st !! oid with Some c => Some (oid, c) | None => None end.
Proof.
  intros Hs Hp. unfold addressed_session.
  rewrite bool_decide_eq_false_2 by exact Hs. now rewrite Hp.
Qed.

(** [send_message] on an accepted identifier, in one equation. *)
Lemma send_message_accepted chat_id u st :
  accepted env chat_id ->
  let query := strip (UserInput.query u) in
  let r := send_outcome env query in
  send_message chat_id u env st =
  (Return r.1,
   {| chats :=
        match addressed_session env st chat_id with
        | Some (oid, c0) => <[oid := with_exchange query r.1 c0]> (chats st)
        | None => chats st
        end;
      trace := trace st ++ r.2 |}).
Proof.
  intros Ha query r.
  destruct (accepted_cases _ Ha) as [Hs | (Hs & oid & Hp)].
  - rewrite (send_message_eq _ _ _ _ _ (create_or_validate_sentinel _ st Hs)).
    rewrite (addressed_session_sentinel _ _ Hs). simpl.
    fold query. fold r. f_equal. f_equal.
    rewrite (exchange_existing _ _ (new_chat_doc (datetime_now env)))
      by apply lookup_insert_eq.
    apply insert_insert_eq.
  - pose proof (create_or_validate_parse chat_id st Hs) as Hc.
    rewrite Hp in Hc.
    rewrite (send_message_eq _ _ _ _ _ Hc).
    rewrite (addressed_session_parsed _ _ _ Hs Hp).
    fold query. fold r. f_equal. f_equal.
    destruct (chats st !! oid) as [c|] eqn:E.
    + now apply exchange_existing.
    + now apply exchange_absent.
Qed.

Lemma send_message_invalid chat_id u st :
  ~ sentinel chat_id -> ObjectId_parse env chat_id = None ->
  send_message chat_id u env st =
  (Raise (HTTPException 400 (py "Invalid chat ID")), st).
Proof.
  intros Hs Hp. apply send_message_rejected.
  rewrite (create_or_validate_parse _ _ Hs). now rewrite Hp.
Qed.

Lemma send_message_trace chat_id u st :
  exists evs,
    trace (send_message chat_id u env st).2 = trace st ++ evs
    /\ (evs = [] \/ evs = (send_outcome env (strip (UserInput.query u))).2).
Proof.
  destruct (decide (sentinel chat_id)) as [Hs|Hs].
  - rewrite send_message_accepted by now left.
    eexists. split; [reflexivity | now right].
  - destruct (ObjectId_parse env chat_id) as [oid|] eqn:Hp.
    + rewrite send_message_accepted by (right; rewrite Hp; eauto).
      eexists. split; [reflexivity | now right].
    + rewrite (send_message_invalid _ _ _ Hs Hp).
      exists []. split; [now rewrite app_nil_r | now left].
Qed.

(** The emergency condition, from what occurs in the query as sent. *)
Lemma emergency_branch_true q :
  (exists k, In k EMERGENCY_KEYWORDS /\ occurs k (lower q)) ->
  ~ occurs (py "what") (lower q) ->
  emergency_branch (strip q) = true.
Proof.
  intros Hk Hw. rewrite emergency_branch_strip. unfold emergency_branch.
  apply andb_true_iff. split.
  - now apply is_emergency_spec.
  - apply negb_true_iff, not_true_is_false. now rewrite contains_spec.
Qed.

Lemma emergency_branch_what q :
  occurs (py "what") (lower q) -> emergency_branch (strip q) = false.
Proof.
  intros Hw. rewrite emergency_branch_strip. unfold emergency_branch.
  apply contains_spec in Hw. rewrite Hw. apply andb_false_r.
Qed.

End HandlerFacts.

(** ** The emergency branch *)

(** C1. A query in which an emergency keyword occurs (in its lower-cased
    text) and "what" does not: [send_message] makes no call to the
    retriever or to the model (the trace is left as it was), and on an
    accepted identifier it returns the fixed safety message. *)
Theorem C1_emergency_answer_without_retrieval
    (env : Env) (chat_id : str) (u : UserInput.t) (st : State) :
  (exists k, In k EMERGENCY_KEYWORDS /\ occurs k (lower (UserInput.query u))) ->
  ~ occurs (py "what") (lower (UserInput.query u)) ->
  trace (send_message chat_id u env st).2 = trace st
  /\ (accepted env chat_id ->
      (send_message chat_id u env st).1 = Return emergency_answer).
Proof.
  intros Hk Hw.
  pose proof (emergency_branch_true _ Hk Hw) as Hb.
  assert (Ho : send_outcome env (strip (UserInput.query u)) = (emergency_answer, [])).
  { unfold send_outcome. now rewrite Hb. }
  split.
  - destruct (send_message_trace env chat_id u st) as (evs & -> & [-> | ->]).
    + apply app_nil_r.
    + rewrite Ho. apply app_nil_r.
  - intros Ha. rewrite (send_message_accepted env _ u st Ha). simpl.
    now rewrite Ho.
Qed.

Lemma C1_witness :
  let u := {| UserInput.query := py "  I have Severe Pain since noon " |} in
  trace (send_message (py "null") u demo_env st0).2 = []
  /\ (send_message (py "null") u demo_env st0).1 = Return emergency_answer.
Proof.
  intros u.
  destruct (C1_emergency_answer_without_retrieval demo_env (py "null") u st0)
    as [Ht Ha].
  - exists (py "severe pain"). split; [simpl; tauto|].
    apply contains_spec. vm_compute. reflexivity.
  - intros H. apply contains_spec in H. vm_compute in H. discriminate.
  - split; [exact Ht|]. apply Ha. left. right. left. reflexivity.
Defined.

(** C2. A query in which both "what" and an emergency keyword occur is
    not answered by the emergency branch: on an accepted identifier the
    answer and the calls to the collaborators are those of the
    retrieval path on the stripped query, which starts by invoking the
    retriever. *)
Theorem C2_what_bypasses_emergency_branch
    (env : Env) (chat_id : str) (u : UserInput.t) (st : State) :
  (exists k, In k EMERGENCY_KEYWORDS /\ occurs k (lower (UserInput.query u))) ->
  occurs (py "what") (lower (UserInput.query u)) ->
  accepted env chat_id ->
  let query := strip (UserInput.query u) in
  (send_message chat_id u env st).1 = (retrieve_and_answer query env st).1
  /\ trace (send_message chat_id u env st).2
     = trace (retrieve_and_answer query env st).2
  /\ exists rest,
       trace (send_message chat_id u env st).2
       = trace st ++ RetrieverInvoke query :: rest.
Proof.
  intros _ Hw Ha query.
  pose proof (emergency_branch_what _ Hw) as Hb.
  rewrite (send_message_accepted env _ u st Ha), retrieve_and_answer_eq.
  fold query in Hb |- *. unfold send_outcome. rewrite Hb. simpl.
  repeat split.
  unfold retrieval_outcome.
  destruct (retriever_invoke env query) as [docs|e]; simpl.
  - destruct (llm_invoke env (prompt_for query docs)); simpl; eauto.
  - eauto.
Qed.

Lemma C2_witness :
  let u := {| UserInput.query := py "What is a miscarriage?" |} in
  (send_message (py "undefined") u demo_env st0).1
  = Return (py "General information.")
  /\ trace (send_message (py "undefined") u demo_env st0).2
     = [ RetrieverInvoke (py "What is a miscarriage?");
         LlmInvoke (qa_prompt_format_messages
                      (py "Iron needs rise in pregnancy.")
                      (py "What is a miscarriage?")) ].
Proof.
  intros u.
  destruct (C2_what_bypasses_emergency_branch demo_env (py "undefined") u st0)
    as (Ho & Ht & _).
  - exists (py "miscarriage"). split; [simpl; tauto|].
    apply contains_spec. vm_compute. reflexivity.
  - apply contains_spec. vm_compute. reflexivity.
  - left. right. right. reflexivity.
  - rewrite Ho, Ht. split; vm_compute; reflexivity.
Defined.

(** ** What a call appends to the collection *)

(** C3, as stated, fails: an identifier that parses but names no stored
    session reaches the pipeline and is answered, yet [update_one]
    finds nothing to update, and no message is appended anywhere. *)
Lemma C3_counterexample :
  let chat_id := py "000000000000000000000000" in
  let u := {| UserInput.query := py "hello" |} in
  ObjectId_parse demo_env chat_id = Some 0%N
  /\ ~ sentinel chat_id
  /\ (send_message chat_id u demo_env st0).1 = Return (py "General information.")
  /\ chats (send_message chat_id u demo_env st0).2 !! 0%N = None
  /\ chats (send_message chat_id u demo_env st0).2 = chats st0.
Proof.
  repeat split; try (vm_compute; reflexivity).
  intros [H | [H | H]]; discriminate.
Qed.

(** C3, amended. A call on an accepted identifier returns an answer.
    When the identifier is a sentinel (the session is created by the
    call) or parses to the key of a stored session, that session gets
    the user message (the stripped query) and then the assistant
    message (the answer) at the end of its log, its title and creation
    time are kept, and every other session is as before; when the
    identifier parses to a key the collection does not hold, the
    collection is left as it was. *)
Theorem C3_one_user_then_one_assistant_message
    (env : Env) (chat_id : str) (u : UserInput.t) (st : State) :
  accepted env chat_id ->
  exists answer,
    (send_message chat_id u env st).1 = Return answer
    /\ chats (send_message chat_id u env st).2
       = match addressed_session env st chat_id with
         | Some (oid, c0) =>
             <[oid := {| title := title c0;
                         created_at := created_at c0;
                         messages :=
                           messages c0
                           ++ [ {| role := user;
                                   text := strip (UserInput.query u) |};
                                {| role := assistant; text := answer |} ] |}]>
               (chats st)
         | None => chats st
         end.
Proof.
  intros Ha. rewrite (send_message_accepted env _ u st Ha). simpl.
  eexists. split; reflexivity.
Qed.

Lemma C3_witness :
  let u := {| UserInput.query := py " Is iron important? " |} in
  chats (send_message (py "null") u demo_env st0).2
  = {[ 0%N := {| title := py "New Chat";
                 created_at := 1762214400%Z;
                 messages :=
                   [ {| role := user; text := py "Is iron important?" |};
                     {| role := assistant;
                        text := py "General information." |} ] |} ]}.
Proof.
  intros u.
  destruct (C3_one_user_then_one_assistant_message demo_env (py "null") u st0)
    as (answer & Ho & Hc).
  - left. right. left. reflexivity.
  - rewrite Hc. vm_compute in Ho. injection Ho as <-.
    vm_compute. reflexivity.
Defined.

(** ** Failures of the collaborators *)

(** C4. Outside the emergency branch, when the retriever raises, or
    the retriever returns and the model raises on the prompt built from
    its documents, [send_message] still returns normally (status 200)
    with the fixed apology as the answer, and the exception is the last
    thing logged. *)
Theorem C4_collaborator_failure_gives_apology
    (env : Env) (chat_id : str) (u : UserInput.t) (st : State) (e : Exception) :
  accepted env chat_id ->
  emergency_branch (UserInput.query u) = false ->
  let query := strip (UserInput.query u) in
  (retriever_invoke env query = Raises e
   \/ exists docs, retriever_invoke env query = Returns docs
                   /\ llm_invoke env (prompt_for query docs) = Raises e) ->
  (send_message chat_id u env st).1 = Return apology_answer
  /\ status_of (send_message chat_id u env st).1 = 200%Z
  /\ exists calls,
       trace (send_message chat_id u env st).2
       = trace st ++ calls ++ [LoggingError e].
Proof.
  intros Ha Hb query Hf.
  rewrite <- emergency_branch_strip in Hb. fold query in Hb.
  rewrite (send_message_accepted env _ u st Ha). fold query.
  unfold send_outcome. rewrite Hb. unfold retrieval_outcome. simpl.
  destruct Hf as [Hr | (docs & Hr & Hl)].
  - rewrite Hr. simpl. repeat split. now exists [RetrieverInvoke query].
  - rewrite Hr, Hl. simpl. repeat split.
    now exists [RetrieverInvoke query; LlmInvoke (prompt_for query docs)].
Qed.

Lemma C4_witness :
  let u := {| UserInput.query := py " crash " |} in
  (send_message (py "null") u demo_env st0).1 = Return apology_answer
  /\ trace (send_message (py "null") u demo_env st0).2
     = [ RetrieverInvoke (py "crash");
         LoggingError (OtherException (py "index unavailable")) ].
Proof.
  intros u.
  destruct (C4_collaborator_failure_gives_apology demo_env (py "null") u st0
              (OtherException (py "index unavailable")))
    as (Ho & _ & _).
  - left. right. left. reflexivity.
  - vm_compute. reflexivity.
  - left. vm_compute. reflexivity.
  - split; [exact Ho | vm_compute; reflexivity].
Defined.

(** ** Identifiers *)

(** C5. An identifier that is no sentinel and does not parse: the call
    raises [HTTPException] with status 400, a client error, and the
    state (collection and trace) is the one it started from. *)
Theorem C5_invalid_id_rejected_without_mutation
    (env : Env) (chat_id : str) (u : UserInput.t) (st : State) :
  chat_id <> [] -> chat_id <> py "null" -> chat_id <> py "undefined" ->
  ObjectId_parse env chat_id = None ->
  (send_message chat_id u env st).1
  = Raise (HTTPException 400 (py "Invalid chat ID"))
  /\ status_of (send_message chat_id u env st).1 = 400%Z
  /\ is_client_error (status_of (send_message chat_id u env st).1) = true
  /\ (send_message chat_id u env st).2 = st.
Proof.
  intros H1 H2 H3 Hp.
  rewrite send_message_invalid; [repeat split | | exact Hp].
  intros [H | [H | H]]; contradiction.
Qed.

Lemma C5_witness :
  let u := {| UserInput.query := py "hello" |} in
  send_message (py "xyz") u demo_env st0
  = (Raise (HTTPException 400 (py "Invalid chat ID")), st0).
Proof.
  intros u.
  destruct (C5_invalid_id_rejected_without_mutation demo_env (py "xyz") u st0)
    as (Ho & _ & _ & Hs); try discriminate.
  - vm_compute. reflexivity.
  - rewrite (surjective_pairing (send_message (py "xyz") u demo_env st0)).
    now rewrite Ho, Hs.
Defined.

(** C6. On a sentinel identifier the call first creates a session as
    [new_chat] does (an identifier the collection does not hold, title
    "New Chat", the current time, no messages) and is then the same
    call, in outcome and final state, as one addressed to that session
    by its identifier; the three sentinels give the same call. *)
Theorem C6_sentinel_creates_session
    (env : Env) (chat_id : str) (u : UserInput.t) (st : State) :
  chat_id = [] \/ chat_id = py "null" \/ chat_id = py "undefined" ->
  let oid := ObjectId_new env (chats st) in
  chats st !! oid = None
  /\ new_chat env st
     = (Return (ObjectId_str env oid),
        {| chats := <[oid := {| title := py "New Chat";
                                created_at := datetime_now env;
                                messages := [] |}]> (chats st);
           trace := trace st |})
  /\ (forall chat_id',
        ~ sentinel chat_id' -> ObjectId_parse env chat_id' = Some oid ->
        send_message chat_id u env st
        = send_message chat_id' u env (new_chat env st).2)
  /\ send_message chat_id u env st = send_message [] u env st
  /\ send_message chat_id u env st = send_message (py "null") u env st
  /\ send_message chat_id u env st = send_message (py "undefined") u env st.
Proof.
  intros Hs oid.
  assert (Hall : forall c, sentinel c ->
            send_message c u env st = send_message chat_id u env st).
  { intros c Hc.
    rewrite !send_message_accepted by (left; assumption).
    now rewrite !addressed_session_sentinel by assumption. }
  split; [apply ObjectId_new_fresh|].
  split; [reflexivity|].
  split.
  - intros chat_id' Hn Hp.
    rewrite (send_message_accepted env chat_id) by now left.
    rewrite (send_message_accepted env chat_id') by (right; rewrite Hp; eauto).
    rewrite (addressed_session_sentinel _ _ _ Hs).
    rewrite (addressed_session_parsed _ _ _ _ Hn Hp).
    simpl. fold oid. rewrite lookup_insert_eq, insert_insert_eq. reflexivity.
  - repeat split; symmetry; apply Hall; unfold sentinel; tauto.
Qed.

Lemma C6_witness :
  let u := {| UserInput.query := py "Is iron important?" |} in
  send_message (py "undefined") u demo_env st0
  = send_message (py "000000000000000000000000") u demo_env
      (new_chat demo_env st0).2.
Proof.
  intros u.
  destruct (C6_sentinel_creates_session demo_env (py "undefined") u st0)
    as (_ & _ & H & _).
  - right. right. reflexivity.
  - apply H.
    + intros [E | [E | E]]; discriminate.
    + vm_compute. reflexivity.
Defined.

(** ** The prompt sent to the model *)

Lemma forallb_map_comp {A B} (f : B -> bool) (g : A -> B) (l : list A) :
  forallb f (map g l) = forallb (fun x => f (g x)) l.
Proof. induction l as [|x l IH]; simpl; [reflexivity | now rewrite IH]. Qed.

(** C7. Outside the emergency branch, once the retriever has returned
    its documents, the model is invoked exactly once, right after the
    retriever. When every document's [page_content] is made of white
    space only (in particular when there is no document), the prompt
    is the plain text "Provide general educational information about: "
    followed by the query, with no system message and no context;
    otherwise it is the system message and the human message carrying
    the documents' [page_content] joined by two line feeds, and the
    query. What the model returns is the answer. *)
Theorem C7_prompt_choice
    (env : Env) (chat_id : str) (u : UserInput.t) (st : State)
    (docs : list Document) :
  accepted env chat_id ->
  emergency_branch (UserInput.query u) = false ->
  let query := strip (UserInput.query u) in
  retriever_invoke env query = Returns docs ->
  let blank := forallb (fun d => forallb isspace (page_content d)) docs in
  let context :=
    list_ascii_of_string
      (String.concat (String "010" (String "010" EmptyString))
         (map (fun d => string_of_list_ascii (page_content d)) docs)) in
  let p :=
    if blank
    then PromptText (py "Provide general educational information about: " ++ query)
    else PromptMessages
           [ (system, qa_system);
             (human, py "Context:" ++ ["010"%char] ++ context
                     ++ ["010"%char; "010"%char]
                     ++ py "Question:" ++ ["010"%char] ++ query) ] in
  (docs = [] ->
   p = PromptText (py "Provide general educational information about: " ++ query))
  /\ (exists rest,
        trace (send_message chat_id u env st).2
        = trace st ++ [RetrieverInvoke query; LlmInvoke p] ++ rest
        /\ existsb is_invocation rest = false)
  /\ (forall content,
        llm_invoke env p = Returns content ->
        (send_message chat_id u env st).1 = Return content).
Proof.
  intros Ha Hb query Hr blank context p.
  assert (Hp : prompt_for query docs = p).
  { unfold prompt_for, p, blank, context, context_of.
    rewrite forallb_isspace_join, forallb_map_comp, join_concat, map_map.
    reflexivity. }
  rewrite <- emergency_branch_strip in Hb. fold query in Hb.
  rewrite (send_message_accepted env _ u st Ha). fold query.
  unfold send_outcome. rewrite Hb. unfold retrieval_outcome. rewrite Hr, Hp.
  simpl.
  split; [now intros -> |].
  destruct (llm_invoke env p) as [content|e]; simpl; split.
  - now exists [].
  - now intros c [= ->].
  - now exists [LoggingError e].
  - discriminate.
Qed.

Lemma C7_witness :
  let blank := {| UserInput.query := py " blank " |} in
  let iron := {| UserInput.query := py "Is iron important?" |} in
  trace (send_message (py "null") blank demo_env st0).2
  = [ RetrieverInvoke (py "blank");
      LlmInvoke (PromptText
        (py "Provide general educational information about: blank")) ]
  /\ trace (send_message (py "null") iron demo_env st0).2
     = [ RetrieverInvoke (py "Is iron important?");
         LlmInvoke (PromptMessages
           [ (system, qa_system);
             (human, py "Context:" ++ ["010"%char]
                     ++ py "Iron needs rise in pregnancy."
                     ++ ["010"%char; "010"%char]
                     ++ py "Question:" ++ ["010"%char]
                     ++ py "Is iron important?") ]) ]
  /\ (send_message (py "null") iron demo_env st0).1
     = Return (py "General information.").
Proof.
  intros blank iron. split; [|split].
  - destruct (C7_prompt_choice demo_env (py "null") blank st0
                [ {| page_content := py "  " |}; {| page_content := nl |} ])
      as (_ & (rest & Ht & _) & _).
    + left. right. left. reflexivity.
    + vm_compute. reflexivity.
    + vm_compute. reflexivity.
    + vm_compute. reflexivity.
  - destruct (C7_prompt_choice demo_env (py "null") iron st0
                [ {| page_content := py "Iron needs rise in pregnancy." |} ])
      as (_ & (rest & Ht & _) & _).
    + left. right. left. reflexivity.
    + vm_compute. reflexivity.
    + vm_compute. reflexivity.
    + vm_compute. reflexivity.
  - destruct (C7_prompt_choice demo_env (py "null") iron st0
                [ {| page_content := py "Iron needs rise in pregnancy." |} ])
      as (_ & _ & Ho).
    + left. right. left. reflexivity.
    + vm_compute. reflexivity.
    + vm_compute. reflexivity.
    + apply Ho. vm_compute. reflexivity.
Defined.

(** ** Reading, renaming and deleting a session *)

Lemma get_chat_eq (env : Env) (chat_id : str) (st : State) :
  get_chat chat_id env st =
  match ObjectId_parse env chat_id with
  | None => (Raise InvalidId, st)
  | Some oid =>
      match chats st !! oid with
      | None => (Raise TypeError, st)
      | Some c => (Return (ObjectId_str env oid, c), st)
      end
  end.
Proof.
  unfold get_chat, bind, ObjectId_, find_one.
  destruct (ObjectId_parse env chat_id) as [oid|]; [|reflexivity].
  now destruct (chats st !! oid).
Qed.

Lemma delete_chat_eq (env : Env) (chat_id : str) (st : State) :
  delete_chat chat_id env st =
  match ObjectId_parse env chat_id with
  | None => (Raise InvalidId, st)
  | Some oid =>
      (Return (py "deleted"),
       {| chats := delete oid (chats st); trace := trace st |})
  end.
Proof.
  unfold delete_chat, bind, ObjectId_, delete_one, with_chats, ret.
  now destruct (ObjectId_parse env chat_id).
Qed.

Lemma update_chat_title_eq (env : Env) (chat_id : str) (t : TitleUpdate.t)
    (st : State) :
  update_chat_title chat_id t env st =
  match ObjectId_parse env chat_id with
  | None => (Raise InvalidId, st)
  | Some oid =>
      (Return (py "updated"),
       {| chats := alter (set_title (TitleUpdate.title t)) oid (chats st);
          trace := trace st |})
  end.
Proof.
  unfold update_chat_title, bind, ObjectId_, update_one_set_title, with_chats, ret.
  now destruct (ObjectId_parse env chat_id).
Qed.

(** C8 does not hold of the code. On an identifier that does not parse,
    [get_chat], [update_chat_title] and [delete_chat] let the
    [InvalidId] of [ObjectId(chat_id)] leave the handler: the answer is
    a 500, a server-side failure and no client error, whereas
    [send_message] catches the same exception and raises a 400. *)
Theorem C8_invalid_id_unhandled_on_get_update_delete
    (env : Env) (chat_id : str) (t : TitleUpdate.t) (st : State) :
  ObjectId_parse env chat_id = None ->
  get_chat chat_id env st = (Raise InvalidId, st)
  /\ update_chat_title chat_id t env st = (Raise InvalidId, st)
  /\ delete_chat chat_id env st = (Raise InvalidId, st)
  /\ status_of (get_chat chat_id env st).1 = 500%Z
  /\ status_of (update_chat_title chat_id t env st).1 = 500%Z
  /\ status_of (delete_chat chat_id env st).1 = 500%Z
  /\ is_client_error 500 = false
  /\ is_server_error 500 = true.
Proof.
  intros Hp.
  rewrite get_chat_eq, update_chat_title_eq, delete_chat_eq, Hp.
  repeat split.
Qed.

Lemma C8_witness :
  let t := {| TitleUpdate.title := py "Iron" |} in
  status_of (get_chat (py "xyz") demo_env st0).1 = 500%Z
  /\ status_of (update_chat_title (py "xyz") t demo_env st0).1 = 500%Z
  /\ status_of (delete_chat (py "xyz") demo_env st0).1 = 500%Z
  /\ status_of
       (send_message (py "xyz") {| UserInput.query := py "hi" |} demo_env st0).1
     = 400%Z.
Proof.
  intros t.
  destruct (C8_invalid_id_unhandled_on_get_update_delete demo_env (py "xyz") t st0)
    as (_ & _ & _ & Hg & Hu & Hd & _).
  - vm_compute. reflexivity.
  - split; [exact Hg|]. split; [exact Hu|]. split; [exact Hd|].
    vm_compute. reflexivity.
Defined.

(** C9 does not hold of the code. For an identifier that parses,
    [delete_chat] returns and leaves no document under that key, but
    [get_chat] on the same identifier then meets the [None] that
    [find_one] yields without testing for it: subscripting it raises
    [TypeError], which leaves the handler, and the answer is a 500, a
    server-side failure and no client error, the same status as for an
    identifier that does not parse. No not-found condition is
    reported. *)
Theorem C9_get_after_delete_is_server_error
    (env : Env) (chat_id : str) (oid : ObjectId) (st : State) :
  ObjectId_parse env chat_id = Some oid ->
  let st1 := (delete_chat chat_id env st).2 in
  (delete_chat chat_id env st).1 = Return (py "deleted")
  /\ chats st1 !! oid = None
  /\ get_chat chat_id env st1 = (Raise TypeError, st1)
  /\ status_of (get_chat chat_id env st1).1 = 500%Z
  /\ is_client_error (status_of (get_chat chat_id env st1).1) = false
  /\ is_server_error (status_of (get_chat chat_id env st1).1) = true
  /\ (forall bad, ObjectId_parse env bad = None ->
        status_of (get_chat bad env st1).1
        = status_of (get_chat chat_id env st1).1).
Proof.
  intros Hp st1. subst st1. rewrite delete_chat_eq, Hp. simpl.
  split; [reflexivity|].
  split; [apply lookup_delete_eq|].
  rewrite !get_chat_eq, Hp. simpl. rewrite lookup_delete_eq.
  split; [reflexivity|]. split; [reflexivity|].
  split; [reflexivity|]. split; [reflexivity|].
  intros bad Hb. now rewrite get_chat_eq, Hb.
Qed.

Lemma C9_witness :
  let chat_id := py "000000000000000000000000" in
  let st1 := (new_chat demo_env st0).2 in
  (get_chat chat_id demo_env st1).1
  = Return (chat_id, new_chat_doc 1762214400%Z)
  /\ status_of (get_chat chat_id demo_env (delete_chat chat_id demo_env st1).2).1
     = 500%Z.
Proof.
  intros chat_id st1.
  destruct (C9_get_after_delete_is_server_error demo_env chat_id 0%N st1)
    as (_ & _ & _ & Hs & _).
  - vm_compute. reflexivity.
  - split; [vm_compute; reflexivity | exact Hs].
Defined.

(** ** The query is stripped first *)

Lemma send_message_strip (env : Env) (chat_id : str) (u : UserInput.t)
    (st : State) :
  send_message chat_id u env st
  = send_message chat_id {| UserInput.query := strip (UserInput.query u) |} env st.
Proof. unfold send_message. simpl. now rewrite strip_idem. Qed.

Lemma retrieval_outcome_calls (env : Env) (query : str) :
  (forall x, In (RetrieverInvoke x) (retrieval_outcome env query).2 -> x = query)
  /\ (forall p, In (LlmInvoke p) (retrieval_outcome env query).2 ->
        exists docs, retriever_invoke env query = Returns docs
                     /\ p = prompt_for query docs).
Proof.
  unfold retrieval_outcome.
  destruct (retriever_invoke env query) as [docs|e]; simpl.
  - destruct (llm_invoke env (prompt_for query docs)); simpl; split.
    + intros x [[= <-] | [H | []]]; [reflexivity | discriminate].
    + intros p [H | [[= <-] | []]]; [discriminate | eauto].
    + intros x [[= <-] | [H | [H | []]]]; [reflexivity | discriminate..].
    + intros p [H | [[= <-] | [H | []]]]; [discriminate | eauto | discriminate].
  - split.
    + intros x [[= <-] | [H | []]]; [reflexivity | discriminate].
    + intros p [H | [H | []]]; discriminate.
Qed.

(** C10. White space around the query does not count. Two requests
    whose queries are the same text between leading and trailing white
    space are the same call: same outcome, same final collection, same
    trace. The query of a request is white space, a text that neither
    starts nor ends with white space, white space; the call is the one
    that text alone would give, and on an accepted identifier the
    emergency test is made on that text, the retriever is invoked on
    it, the model on a prompt carrying it, and the user message stored
    in the addressed session has it as its text. *)
Theorem C10_query_stripped_first
    (env : Env) (chat_id : str) (u1 u2 : UserInput.t) (st : State)
    (lead1 trail1 lead2 trail2 core : str) :
  UserInput.query u1 = lead1 ++ core ++ trail1 ->
  UserInput.query u2 = lead2 ++ core ++ trail2 ->
  forallb isspace lead1 = true -> forallb isspace trail1 = true ->
  forallb isspace lead2 = true -> forallb isspace trail2 = true ->
  let r := send_message chat_id u1 env st in
  r = send_message chat_id u2 env st
  /\ exists lead trimmed trail,
       UserInput.query u1 = lead ++ trimmed ++ trail
       /\ forallb isspace lead = true
       /\ forallb isspace trail = true
       /\ (forall c rest, trimmed = c :: rest -> isspace c = false)
       /\ (forall init c, trimmed = init ++ [c] -> isspace c = false)
       /\ r = send_message chat_id {| UserInput.query := trimmed |} env st
       /\ (accepted env chat_id ->
           (is_emergency trimmed && negb (contains (py "what") (lower trimmed))
            = true ->
            r.1 = Return emergency_answer /\ trace r.2 = trace st)
           /\ (exists calls,
                 trace r.2 = trace st ++ calls
                 /\ (forall x, In (RetrieverInvoke x) calls -> x = trimmed)
                 /\ (forall p, In (LlmInvoke p) calls ->
                       p = fallback_prompt trimmed
                       \/ exists context,
                            p = qa_prompt_format_messages context trimmed))
           /\ (forall oid c0,
                 addressed_session env st chat_id = Some (oid, c0) ->
                 exists c,
                   chats r.2 !! oid = Some c
                   /\ messages c !! length (messages c0)
                      = Some {| role := user; text := trimmed |})).
Proof.
  intros H1 H2 Hl1 Ht1 Hl2 Ht2 r.
  split.
  { subst r. rewrite (send_message_strip env chat_id u1),
      (send_message_strip env chat_id u2), H1, H2.
    now rewrite !strip_surround by assumption. }
  destruct (strip_decompose (UserInput.query u1)) as (lead & trail & Hq & Hl & Ht).
  set (query := strip (UserInput.query u1)) in *.
  exists lead, query, trail.
  split; [exact Hq|]. split; [exact Hl|]. split; [exact Ht|].
  split; [intros c rest; apply strip_no_leading|].
  split; [intros init c; apply strip_no_trailing|].
  split; [apply send_message_strip|].
  intros Ha. subst r. rewrite (send_message_accepted env _ u1 st Ha).
  fold query. simpl. split; [|split].
  - intros Hb. change (emergency_branch query = true) in Hb.
    unfold send_outcome. rewrite Hb. simpl.
    split; [reflexivity | apply app_nil_r].
  - exists (send_outcome env query).2. split; [reflexivity|].
    unfold send_outcome. destruct (emergency_branch query).
    + split; [intros x [] | intros p []].
    + destruct (retrieval_outcome_calls env query) as [Hr Hm].
      split; [exact Hr|]. intros p Hp. destruct (Hm p Hp) as (docs & _ & ->).
      unfold prompt_for. destruct (forallb isspace (context_of docs)); eauto.
  - intros oid c0 ->. eexists. split; [apply lookup_insert_eq|].
    unfold with_exchange. simpl.
    rewrite lookup_app_r by reflexivity.
    now rewrite Nat.sub_diag.
Qed.

Lemma C10_witness :
  let u1 := {| UserInput.query := py "   Is iron important?  " |} in
  let u2 := {| UserInput.query := nl ++ py "Is iron important?" ++ nl |} in
  send_message (py "null") u1 demo_env st0
  = send_message (py "null") u2 demo_env st0.
Proof.
  intros u1 u2.
  destruct (C10_query_stripped_first demo_env (py "null") u1 u2 st0
              (py "   ") (py "  ") nl nl (py "Is iron important?"))
    as [H _].
  - reflexivity.
  - reflexivity.
  - reflexivity.
  - reflexivity.
  - reflexivity.
  - reflexivity.
  - exact H.
Defined.

(** * Further properties of the code *)

(** ** The emergency filter *)

Lemma lower_app (a b : str) : lower (a ++ b) = lower a ++ lower b.
Proof. apply map_app. Qed.

Lemma occurs_length (k s : str) : occurs k s -> length k <= length s.
Proof.
  intros (a & b & ->). rewrite !length_app. lia.
Qed.

(** X1. Text around a query never hides a keyword: a query flagged by
    [is_emergency] stays flagged with anything written before and
    after it. *)
Theorem is_emergency_in_context (a q b : str) :
  is_emergency q = true -> is_emergency (a ++ q ++ b) = true.
Proof.
  rewrite !is_emergency_spec. intros (k & Hin & (x & y & Hq)).
  exists k. split; [exact Hin|].
  rewrite !lower_app, Hq. exists (lower a ++ x), (y ++ lower b).
  now rewrite <- !app_assoc.
Qed.

Lemma is_emergency_in_context_witness :
  is_emergency (py "My emergency contact is " ++ py "Having a SEIZURE" ++ py "!")
  = true.
Proof.
  apply (is_emergency_in_context (py "My emergency contact is ")
           (py "Having a SEIZURE") (py "!")).
  vm_compute. reflexivity.
Defined.

(** X2. No query of fewer than seven characters is flagged (the
    shortest keyword has seven); the empty query is not. *)
Theorem is_emergency_short_query (q : str) :
  length q < 7 -> is_emergency q = false.
Proof.
  intros Hlen. apply not_true_is_false. rewrite is_emergency_spec.
  intros (k & Hin & Hocc). apply occurs_length in Hocc.
  unfold lower in Hocc. rewrite length_map in Hocc.
  simpl in Hin.
  destruct Hin as [<- | [<- | [<- | [<- | [<- | [<- | [<- | []]]]]]]];
    simpl in Hocc; lia.
Qed.

Lemma is_emergency_short_query_witness :
  is_emergency [] = false /\ is_emergency (py "seizur") = false.
Proof.
  split; apply is_emergency_short_query; simpl; lia.
Defined.

(** ** Creating, renaming, deleting and reading a session *)

Lemma new_chat_eq (env : Env) (st : State) :
  new_chat env st =
  (Return (ObjectId_str env (ObjectId_new env (chats st))),
   {| chats := <[ObjectId_new env (chats st) := new_chat_doc (datetime_now env)]>
                 (chats st);
      trace := trace st |}).
Proof. reflexivity. Qed.

(** X3. [new_chat] adds exactly one session, under a key the store did
    not hold, and keeps every stored session as it was; when the
    identifier it returns parses back to that key, [get_chat] on it
    returns the new session: title "New Chat", the current time, no
    message. *)
Theorem new_chat_then_get_chat (env : Env) (st : State) :
  let oid := ObjectId_new env (chats st) in
  let st1 := (new_chat env st).2 in
  ObjectId_parse env (ObjectId_str env oid) = Some oid ->
  exists chat_id,
    (new_chat env st).1 = Return chat_id
    /\ get_chat chat_id env st1
       = (Return (chat_id, {| title := py "New Chat";
                              created_at := datetime_now env;
                              messages := [] |}), st1)
    /\ size (chats st1) = S (size (chats st))
    /\ (forall oid' c, chats st !! oid' = Some c -> chats st1 !! oid' = Some c).
Proof.
  intros oid st1 Hp. subst st1. rewrite new_chat_eq. simpl. fold oid.
  exists (ObjectId_str env oid). split; [reflexivity|].
  split; [rewrite get_chat_eq, Hp; simpl; now rewrite lookup_insert_eq|].
  pose proof (ObjectId_new_fresh env (chats st)) as Hf. fold oid in Hf.
  split; [now apply map_size_insert_None|].
  intros oid' c Hc. rewrite lookup_insert_ne; [exact Hc|].
  intros <-. congruence.
Qed.

Lemma new_chat_then_get_chat_witness :
  get_chat (py "000000000000000000000000") demo_env (new_chat demo_env st0).2
  = (Return (py "000000000000000000000000", new_chat_doc 1762214400%Z),
     (new_chat demo_env st0).2).
Proof.
  destruct (new_chat_then_get_chat demo_env st0) as (chat_id & Hid & Hg & _).
  - vm_compute. reflexivity.
  - vm_compute in Hid. injection Hid as <-. exact Hg.
Defined.

(** X4. [update_chat_title] on the identifier of a stored session
    changes its title and nothing else: [get_chat] then returns the new
    title with the creation time and the messages it had, and every
    other session is as before. *)
Theorem update_chat_title_then_get_chat
    (env : Env) (chat_id : str) (t : TitleUpdate.t) (st : State)
    (oid : ObjectId) (c : Chat) :
  ObjectId_parse env chat_id = Some oid ->
  chats st !! oid = Some c ->
  let st1 := (update_chat_title chat_id t env st).2 in
  (update_chat_title chat_id t env st).1 = Return (py "updated")
  /\ get_chat chat_id env st1
     = (Return (ObjectId_str env oid,
                {| title := TitleUpdate.title t;
                   created_at := created_at c;
                   messages := messages c |}), st1)
  /\ (forall oid', oid' <> oid -> chats st1 !! oid' = chats st !! oid')
  /\ trace st1 = trace st.
Proof.
  intros Hp Hc st1. subst st1. rewrite update_chat_title_eq, Hp. simpl.
  split; [reflexivity|].
  split; [rewrite get_chat_eq, Hp; simpl; now rewrite lookup_alter_eq, Hc|].
  split; [|reflexivity].
  intros oid' Hne. now apply lookup_alter_ne.
Qed.

Lemma update_chat_title_then_get_chat_witness :
  let chat_id := py "000000000000000000000000" in
  let t := {| TitleUpdate.title := py "Iron" |} in
  (get_chat chat_id demo_env
     (update_chat_title chat_id t demo_env (new_chat demo_env st0).2).2).1
  = Return (chat_id, {| title := py "Iron"; created_at := 1762214400%Z;
                        messages := [] |}).
Proof.
  intros chat_id t.
  destruct (update_chat_title_then_get_chat demo_env chat_id t
              (new_chat demo_env st0).2 0%N (new_chat_doc 1762214400%Z))
    as (_ & Hg & _).
  - vm_compute. reflexivity.
  - vm_compute. reflexivity.
  - now rewrite Hg.
Defined.

(** X5. [update_chat_title] on an identifier that parses but names no
    stored session answers "updated" all the same and changes nothing:
    no session is created. *)
Theorem update_chat_title_absent
    (env : Env) (chat_id : str) (t : TitleUpdate.t) (st : State) (oid : ObjectId) :
  ObjectId_parse env chat_id = Some oid ->
  chats st !! oid = None ->
  update_chat_title chat_id t env st = (Return (py "updated"), st).
Proof.
  intros Hp Hc. rewrite update_chat_title_eq, Hp.
  rewrite (alter_None _ _ _ Hc). now destruct st.
Qed.

Lemma update_chat_title_absent_witness :
  update_chat_title (py "00000000000000000000002a")
    {| TitleUpdate.title := py "Iron" |} demo_env st0
  = (Return (py "updated"), st0).
Proof.
  apply (update_chat_title_absent demo_env _ _ st0 42%N).
  - vm_compute. reflexivity.
  - vm_compute. reflexivity.
Defined.

(** X6. Of two title updates of the same session the later one wins:
    the state after both is the state after the second alone. *)
Theorem update_chat_title_twice
    (env : Env) (chat_id : str) (t1 t2 : TitleUpdate.t) (st : State) :
  (update_chat_title chat_id t2 env (update_chat_title chat_id t1 env st).2).2
  = (update_chat_title chat_id t2 env st).2.
Proof.
  rewrite !update_chat_title_eq.
  destruct (ObjectId_parse env chat_id) as [oid|]; [|reflexivity].
  simpl. f_equal. apply map_eq. intros j.
  destruct (decide (oid = j)) as [<-|Hne].
  - rewrite !lookup_alter_eq. now destruct (chats st !! oid).
  - now rewrite !lookup_alter_ne.
Qed.

(** X7. [delete_chat] on an identifier that parses answers "deleted"
    whether or not the session exists; it removes that session only,
    deleting again changes nothing more, and deleting a session that
    is not stored changes nothing. *)
Theorem delete_chat_effect
    (env : Env) (chat_id : str) (st : State) (oid : ObjectId) :
  ObjectId_parse env chat_id = Some oid ->
  let st1 := (delete_chat chat_id env st).2 in
  (delete_chat chat_id env st).1 = Return (py "deleted")
  /\ chats st1 !! oid = None
  /\ (forall oid', oid' <> oid -> chats st1 !! oid' = chats st !! oid')
  /\ delete_chat chat_id env st1 = (Return (py "deleted"), st1)
  /\ (chats st !! oid = None -> st1 = st).
Proof.
  intros Hp st1. subst st1. rewrite !delete_chat_eq, Hp. simpl.
  split; [reflexivity|].
  split; [apply lookup_delete_eq|].
  split; [intros oid' Hne; now apply lookup_delete_ne|].
  split.
  - f_equal. f_equal. apply delete_id, lookup_delete_eq.
  - intros Hc. rewrite (delete_id _ _ Hc). now destruct st.
Qed.

Lemma delete_chat_effect_witness :
  let chat_id := py "000000000000000000000000" in
  let st1 := (delete_chat chat_id demo_env (new_chat demo_env st0).2).2 in
  chats st1 !! 0%N = None
  /\ delete_chat chat_id demo_env st1 = (Return (py "deleted"), st1).
Proof.
  intros chat_id st1.
  destruct (delete_chat_effect demo_env chat_id (new_chat demo_env st0).2 0%N)
    as (_ & Hl & _ & Hd & _).
  - vm_compute. reflexivity.
  - split; [exact Hl | exact Hd].
Defined.

(** ** What [send_message] keeps and what it never does *)

Lemma addressed_session_cases (env : Env) (st : State) (chat_id : str)
    (oid : ObjectId) (c0 : Chat) :
  addressed_session env st chat_id = Some (oid, c0) ->
  (chats st !! oid = None /\ c0 = new_chat_doc (datetime_now env))
  \/ chats st !! oid = Some c0.
Proof.
  unfold addressed_session. case_bool_decide.
  - intros [= <- <-]. left. split; [apply ObjectId_new_fresh | reflexivity].
  - destruct (ObjectId_parse env chat_id) as [o|]; [|discriminate].
    destruct (chats st !! o) as [c|] eqn:E; [|discriminate].
    intros [= <- <-]. now right.
Qed.

Lemma send_message_cases (env : Env) (chat_id : str) (u : UserInput.t)
    (st : State) :
  send_message chat_id u env st
  = (Raise (HTTPException 400 (py "Invalid chat ID")), st)
  \/ accepted env chat_id.
Proof.
  destruct (decide (sentinel chat_id)) as [Hs|Hs]; [right; now left|].
  destruct (ObjectId_parse env chat_id) as [oid|] eqn:Hp.
  - right. right. rewrite Hp. eauto.
  - left. now apply send_message_invalid.
Qed.

(** X8. The store is append-only under [send_message]: whatever the
    identifier and the query, every session stored before the call is
    still stored after it with the same title and creation time, and
    its log is the old log followed by nothing or by one user message
    and one assistant message. *)
Theorem send_message_append_only
    (env : Env) (chat_id : str) (u : UserInput.t) (st : State)
    (oid : ObjectId) (c : Chat) :
  chats st !! oid = Some c ->
  exists c' new,
    chats (send_message chat_id u env st).2 !! oid = Some c'
    /\ title c' = title c
    /\ created_at c' = created_at c
    /\ messages c' = messages c ++ new
    /\ (new = []
        \/ exists answer,
             new = [ {| role := user; text := strip (UserInput.query u) |};
                     {| role := assistant; text := answer |} ]).
Proof.
  intros Hc.
  destruct (send_message_cases env chat_id u st) as [-> | Ha].
  { exists c, []. rewrite app_nil_r. simpl. tauto. }
  rewrite (send_message_accepted env _ u st Ha). simpl.
  destruct (addressed_session env st chat_id) as [[oid0 c0]|] eqn:E.
  - destruct (decide (oid0 = oid)) as [->|Hne].
    + destruct (addressed_session_cases _ _ _ _ _ E) as [[Hn _] | Hs];
        [congruence|].
      assert (c0 = c) as -> by congruence.
      rewrite lookup_insert_eq. eexists _, _. split; [reflexivity|].
      simpl. repeat split. right. eauto.
    + rewrite lookup_insert_ne by exact Hne.
      exists c, []. rewrite app_nil_r. tauto.
  - exists c, []. rewrite app_nil_r. tauto.
Qed.

Lemma send_message_append_only_witness :
  let chat_id := py "000000000000000000000000" in
  let u := {| UserInput.query := py " I have severe pain " |} in
  exists c',
    chats (send_message chat_id u demo_env (new_chat demo_env st0).2).2 !! 0%N
    = Some c'
    /\ title c' = py "New Chat".
Proof.
  intros chat_id u.
  destruct (send_message_append_only demo_env chat_id u
              (new_chat demo_env st0).2 0%N (new_chat_doc 1762214400%Z))
    as (c' & new & Hl & Ht & _).
  - vm_compute. reflexivity.
  - exists c'. split; [exact Hl | exact Ht].
Defined.

Lemma alternating_app_exchange (l : list Message) (q a : str) :
  alternating l = true ->
  alternating (l ++ [ {| role := user; text := q |};
                      {| role := assistant; text := a |} ]) = true.
Proof.
  assert (H : forall l,
    (alternating l = true ->
     alternating (l ++ [ {| role := user; text := q |};
                         {| role := assistant; text := a |} ]) = true)
    /\ (forall m, alternating (m :: l) = true ->
          alternating (m :: l ++ [ {| role := user; text := q |};
                                   {| role := assistant; text := a |} ]) = true)).
  { clear l. induction l as [|m' l [IH1 IH2]].
    - split; [reflexivity | discriminate].
    - split; [apply IH2|].
      intros m. simpl. destruct (role m), (role m'); auto. }
  apply H.
Qed.

(** X9. Exchanges stay whole: when every stored log is a sequence of
    (user, assistant) pairs, it is so again after any call of
    [send_message], [new_chat], [update_chat_title] or [delete_chat]. *)
Theorem logs_alternate_kept (env : Env) (st : State) :
  logs_alternate st ->
  (forall chat_id u, logs_alternate (send_message chat_id u env st).2)
  /\ logs_alternate (new_chat env st).2
  /\ (forall chat_id t, logs_alternate (update_chat_title chat_id t env st).2)
  /\ (forall chat_id, logs_alternate (delete_chat chat_id env st).2).
Proof.
  intros Hst. repeat split.
  - intros chat_id u oid c.
    destruct (send_message_cases env chat_id u st) as [-> | Ha]; [apply Hst|].
    rewrite (send_message_accepted env _ u st Ha). simpl.
    destruct (addressed_session env st chat_id) as [[oid0 c0]|] eqn:E;
      [|apply Hst].
    destruct (decide (oid0 = oid)) as [->|Hne].
    + rewrite lookup_insert_eq. intros [= <-]. simpl.
      apply alternating_app_exchange.
      destruct (addressed_session_cases _ _ _ _ _ E) as [[_ ->] | Hs];
        [reflexivity | now apply (Hst oid)].
    + rewrite lookup_insert_ne by exact Hne. apply Hst.
  - intros oid c. rewrite new_chat_eq. simpl.
    destruct (decide (ObjectId_new env (chats st) = oid)) as [->|Hne].
    + rewrite lookup_insert_eq. now intros [= <-].
    + rewrite lookup_insert_ne by exact Hne. apply Hst.
  - intros chat_id t oid c. rewrite update_chat_title_eq.
    destruct (ObjectId_parse env chat_id) as [o|]; [|apply Hst]. simpl.
    destruct (decide (o = oid)) as [->|Hne].
    + rewrite lookup_alter_eq.
      destruct (chats st !! oid) as [c0|] eqn:E; [|discriminate].
      intros [= <-]. simpl. now apply (Hst oid).
    + rewrite lookup_alter_ne by exact Hne. apply Hst.
  - intros chat_id oid c. rewrite delete_chat_eq.
    destruct (ObjectId_parse env chat_id) as [o|]; [|apply Hst]. simpl.
    intros H. apply lookup_delete_Some in H as [_ H]. now apply (Hst oid).
Qed.

Lemma logs_alternate_kept_witness :
  logs_alternate
    (send_message (py "null") {| UserInput.query := py "hello" |} demo_env st0).2.
Proof.
  destruct (logs_alternate_kept demo_env st0) as (H & _).
  - intros oid c H. vm_compute in H. discriminate.
  - apply H.
Defined.

(** X10. A deleted session is not brought back by a message sent to
    it: the call returns an answer, stores nothing, and [get_chat] on
    the identifier still fails. *)
Theorem send_message_after_delete
    (env : Env) (chat_id : str) (u : UserInput.t) (st : State) (oid : ObjectId) :
  ~ sentinel chat_id ->
  ObjectId_parse env chat_id = Some oid ->
  let st1 := (delete_chat chat_id env st).2 in
  let r := send_message chat_id u env st1 in
  (exists answer, r.1 = Return answer)
  /\ chats r.2 = chats st1
  /\ (get_chat chat_id env r.2).1 = Raise TypeError.
Proof.
  intros Hs Hp st1 r. subst r st1.
  rewrite delete_chat_eq, Hp. simpl.
  rewrite send_message_accepted by (right; rewrite Hp; eauto).
  rewrite (addressed_session_parsed _ _ _ _ Hs Hp). simpl.
  rewrite lookup_delete_eq.
  split; [eauto|]. split; [reflexivity|].
  rewrite get_chat_eq, Hp. simpl. now rewrite lookup_delete_eq.
Qed.

Lemma send_message_after_delete_witness :
  let chat_id := py "000000000000000000000000" in
  let u := {| UserInput.query := py "hello" |} in
  chats (send_message chat_id u demo_env
           (delete_chat chat_id demo_env (new_chat demo_env st0).2).2).2
  = ∅.
Proof.
  intros chat_id u.
  destruct (send_message_after_delete demo_env chat_id u
              (new_chat demo_env st0).2 0%N) as (_ & Hc & _).
  - intros [E | [E | E]]; discriminate.
  - vm_compute. reflexivity.
  - rewrite Hc. vm_compute. reflexivity.
Defined.

(** X11. One request costs at most one call to the retriever and at
    most one call to the model, and the model is never called without
    the retriever having been called first in the same request. *)
Theorem send_message_call_bounds
    (env : Env) (chat_id : str) (u : UserInput.t) (st : State) :
  exists calls,
    trace (send_message chat_id u env st).2 = trace st ++ calls
    /\ count_retriever calls <= 1
    /\ count_llm calls <= count_retriever calls
    /\ (forall p before after,
          calls = before ++ LlmInvoke p :: after ->
          exists q, In (RetrieverInvoke q) before).
Proof.
  destruct (send_message_trace env chat_id u st) as (calls & Ht & Hc).
  exists calls. split; [exact Ht|]. unfold count_retriever, count_llm.
  assert (Hnil : forall p before after,
            @nil Event = before ++ LlmInvoke p :: after -> False).
  { intros p [|? ?] after; discriminate. }
  destruct Hc as [-> | ->].
  { simpl. split; [lia|]. split; [lia|]. intros p b a H. now apply Hnil in H. }
  unfold send_outcome. destruct (emergency_branch _).
  { simpl. split; [lia|]. split; [lia|]. intros p b a H. now apply Hnil in H. }
  set (query := strip (UserInput.query u)).
  unfold retrieval_outcome.
  destruct (retriever_invoke env query) as [docs|e]; simpl.
  - assert (forall rest p before after,
                RetrieverInvoke query :: LlmInvoke (prompt_for query docs) :: rest
                = before ++ LlmInvoke p :: after ->
                exists q, In (RetrieverInvoke q) before) as Hpos.
    { intros rest p [|b0 [|b1 before]] after; simpl.
      - discriminate.
      - intros [= <- _ _]. exists query. now left.
      - intros [= <- _ _]. exists query. now left. }
    destruct (llm_invoke env (prompt_for query docs)); simpl;
      (split; [lia|]); (split; [lia|]); apply Hpos.
  - split; [lia|]. split; [lia|].
    intros p [|b0 [|b1 [|b2 before]]] after; simpl; try discriminate.
Qed.

(** X12. The answer returned is the safety message, the apology, or
    the text the model returned for some prompt: nothing else reaches
    the caller or the log. *)
Theorem send_message_answer_origin
    (env : Env) (chat_id : str) (u : UserInput.t) (st : State) (answer : str) :
  (send_message chat_id u env st).1 = Return answer ->
  answer = emergency_answer
  \/ answer = apology_answer
  \/ exists p, llm_invoke env p = Returns answer.
Proof.
  destruct (send_message_cases env chat_id u st) as [-> | Ha]; [discriminate|].
  rewrite (send_message_accepted env _ u st Ha). simpl. intros [= <-].
  unfold send_outcome. destruct (emergency_branch _); [now left|].
  unfold retrieval_outcome.
  destruct (retriever_invoke env _) as [docs|e]; [|right; now left].
  destruct (llm_invoke env (prompt_for _ docs)) eqn:E; simpl.
  - right. right. eauto.
  - right. now left.
Qed.

Lemma send_message_answer_origin_witness :
  py "General information." = emergency_answer
  \/ py "General information." = apology_answer
  \/ exists p, llm_invoke demo_env p = Returns (py "General information.").
Proof.
  apply (send_message_answer_origin demo_env (py "null")
           {| UserInput.query := py "hello" |} st0).
  vm_compute. reflexivity.
Defined.

(** X13. The routes other than [send_message] never call the
    retriever, the model or the logger, and the two GET routes leave
    the collection as it is, whatever they are given. *)
Theorem crud_routes_make_no_calls
    (env : Env) (chat_id : str) (t : TitleUpdate.t) (st : State) :
  trace (new_chat env st).2 = trace st
  /\ trace (update_chat_title chat_id t env st).2 = trace st
  /\ trace (delete_chat chat_id env st).2 = trace st
  /\ (get_chat chat_id env st).2 = st
  /\ (list_chats env st).2 = st.
Proof.
  rewrite new_chat_eq, update_chat_title_eq, delete_chat_eq, get_chat_eq.
  destruct (ObjectId_parse env chat_id) as [oid|]; simpl; repeat split.
  now destruct (chats st !! oid).
Qed.

(** ** Listing the sessions *)

#[global] Instance newer_first_total : Total newer_first.
Proof. intros a b. unfold newer_first. lia. Qed.

#[global] Instance newer_first_trans : Transitive newer_first.
Proof. intros a b c. unfold newer_first. lia. Qed.

(** X14. [list_chats] answers with one entry per stored session, the
    identifier as a string with the stored title, ordered so that no
    entry comes before one of a later creation time; it never fails
    and, on an empty store, the list is empty. *)
Theorem list_chats_sorted (env : Env) (st : State) :
  exists docs,
    (list_chats env st).1
    = Return (map (fun c => (ObjectId_str env c.1, title c.2)) docs)
    /\ docs ≡ₚ map_to_list (chats st)
    /\ StronglySorted
         (fun a b => (created_at b.2 <= created_at a.2)%Z) docs
    /\ length docs = size (chats st)
    /\ (forall oid c, chats st !! oid = Some c <-> In (oid, c) docs)
    /\ (chats st = ∅ -> docs = []).
Proof.
  exists (find_sort_created_at (chats st)). unfold find_sort_created_at.
  pose proof (merge_sort_Permutation newer_first (map_to_list (chats st))) as Hp.
  split; [reflexivity|]. split; [exact Hp|].
  split; [apply (StronglySorted_merge_sort newer_first)|].
  split; [now rewrite Hp, length_map_to_list|].
  split.
  - intros oid c. rewrite <- list_elem_of_In, Hp. symmetry.
    apply elem_of_map_to_list.
  - intros E. now rewrite E, map_to_list_empty.
Qed.


(** ** Start-up *)

Lemma endswith_spec (suffix s : str) :
  endswith suffix s = true <-> exists p, s = p ++ suffix.
Proof.
  unfold endswith. rewrite startswith_spec. split.
  - intros [b Hb]. exists (rev b).
    rewrite <- (rev_involutive s), Hb, rev_app_distr.
    now rewrite rev_involutive.
  - intros [p' ->]. exists (rev p'). apply rev_app_distr.
Qed.

Lemma then_load_assoc (d d0 : list Document) (o o0 : list Printed) r :
  then_load (Returns d, o) (then_load (Returns d0, o0) r)
  = then_load (Returns (d ++ d0), o ++ o0) r.
Proof. destruct r as [[dr|e] or]; simpl; now rewrite !app_assoc. Qed.

Lemma load_loop_acc (l : list DirEntry) (d : list Document) (o : list Printed) :
  load_loop l d o = then_load (Returns d, o) (load_all l).
Proof.
  unfold load_all. revert d o. induction l as [|f l IH]; intros d o.
  - simpl. now rewrite !app_nil_r.
  - cbn [load_loop].
    destruct (negb (endswith (py ".pdf") (file f))); [apply IH|].
    destruct (getsize f) as [size|e]; [|simpl; now rewrite app_nil_r].
    destruct (size <? 1000)%N; [apply IH|].
    destruct (PyPDFLoader_load f) as [docs|e].
    + rewrite (IH (d ++ docs)), (IH ([] ++ docs)), then_load_assoc.
      reflexivity.
    + rewrite (IH d (o ++ _)), (IH [] ([] ++ _)), then_load_assoc.
      simpl. now rewrite app_nil_r.
Qed.

Lemma load_loop_app (a b : list DirEntry) (d : list Document) (o : list Printed) :
  load_loop (a ++ b) d o = then_load (load_loop a d o) (load_all b).
Proof.
  revert d o. induction a as [|f a IH]; intros d o.
  - apply load_loop_acc.
  - cbn [app load_loop].
    destruct (negb (endswith (py ".pdf") (file f))); [apply IH|].
    destruct (getsize f) as [size|e]; [|reflexivity].
    destruct (size <? 1000)%N; [apply IH|].
    destruct (PyPDFLoader_load f); apply IH.
Qed.

Lemma load_all_app_eq (a b : list DirEntry) :
  load_all (a ++ b) = then_load (load_all a) (load_all b).
Proof. apply load_loop_app. Qed.

Lemma load_all_cons (f : DirEntry) (l : list DirEntry) :
  load_all (f :: l) = then_load (load_all [f]) (load_all l).
Proof. apply (load_all_app_eq [f] l). Qed.

(** X15. The loading loop goes through the directory in order and
    stops at the first exception that reaches it: when the loop over a
    first part of the listing is left by an exception, the whole loop
    is left by it after the same printed lines and the rest is never
    looked at; otherwise the documents and lines of the first part are
    followed by whatever the loop gives on the rest. *)
Theorem load_all_app (a b : list DirEntry) :
  load_all (a ++ b)
  = match load_all a with
    | (Raises e, out_a) => (Raises e, out_a)
    | (Returns docs_a, out_a) =>
        match load_all b with
        | (Returns docs_b, out_b) => (Returns (docs_a ++ docs_b), out_a ++ out_b)
        | (Raises e, out_b) => (Raises e, out_a ++ out_b)
        end
    end.
Proof. apply load_all_app_eq. Qed.

Lemma load_single_raises (f : DirEntry) (e : Exception) :
  (load_all [f]).1 = Raises e <-> stat_fails f e.
Proof.
  unfold load_all, stat_fails. cbn [load_loop].
  destruct (endswith (py ".pdf") (file f)); cbn [negb].
  2:{ split; [discriminate | intros [H _]; discriminate]. }
  destruct (getsize f) as [size|e0].
  - destruct (size <? 1000)%N; [|destruct (PyPDFLoader_load f)];
      (split; [discriminate | intros [_ H]; discriminate]).
  - simpl. split; [intros [= ->]; auto | now intros [_ [= ->]]].
Qed.

Lemma load_single_docs (f : DirEntry) (ds : list Document) (d : Document) :
  (load_all [f]).1 = Returns ds ->
  (In d ds <-> exists docs, contributes f docs /\ In d docs).
Proof.
  unfold load_all, contributes. cbn [load_loop].
  destruct (endswith (py ".pdf") (file f)); cbn [negb].
  2:{ intros [= <-]. split; [intros [] | intros (? & (H & _) & _); discriminate]. }
  destruct (getsize f) as [size|e0]; [|discriminate].
  destruct (N.ltb_spec size 1000).
  { intros [= <-]. split; [intros []|].
    intros (? & (_ & (n & [= <-] & Hn) & _) & _). lia. }
  destruct (PyPDFLoader_load f) as [docs|e0]; intros [= <-].
  - split; [intros Hd; exists docs; eauto 8|].
    now intros (docs' & (_ & _ & [= <-]) & Hd).
  - split; [intros [] | intros (? & (_ & _ & H1) & _); discriminate].
Qed.

Lemma In_load_all (l : list DirEntry) (all_docs : list Document) (d : Document) :
  (load_all l).1 = Returns all_docs ->
  (In d all_docs
   <-> exists f docs, In f l /\ contributes f docs /\ In d docs).
Proof.
  revert all_docs. induction l as [|f l IH]; intros all_docs.
  - intros [= <-]. split; [intros [] | intros (f & docs & [] & _)].
  - rewrite load_all_cons.
    destruct (load_all [f]) as [[df|e] o] eqn:Ef; [|discriminate].
    destruct (load_all l) as [[dl|e] ol] eqn:El; [|discriminate].
    simpl. intros [= <-]. rewrite in_app_iff, (IH dl eq_refl).
    rewrite (load_single_docs f df d) by now rewrite Ef.
    split.
    + intros [(docs & Hc & Hd) | (f' & docs & Hf & Hc & Hd)].
      * exists f, docs. auto.
      * exists f', docs. auto.
    + intros (f' & docs & [<- | Hf] & Hc & Hd).
      * left. eauto.
      * right. eauto.
Qed.

Lemma load_all_returns (l : list DirEntry) :
  (exists all_docs, (load_all l).1 = Returns all_docs)
  <-> (forall f e, In f l -> ~ stat_fails f e).
Proof.
  induction l as [|f l IH].
  - split; [intros _ f e [] | intros _; now exists []].
  - rewrite load_all_cons. split.
    + intros [all_docs H] g e [<- | Hg] Hs.
      * apply load_single_raises in Hs.
        destruct (load_all [f]) as [[?|?] ?]; discriminate.
      * destruct (load_all [f]) as [[df|?] o]; [|discriminate].
        destruct (load_all l) as [[dl|?] ol] eqn:El; [|discriminate].
        exact (proj1 IH (ex_intro _ dl eq_refl) g e Hg Hs).
    + intros H.
      destruct (load_all [f]) as [[df|e] o] eqn:Ef.
      * destruct IH as [_ IH]. destruct IH as [dl Hdl].
        { intros g e Hg. apply H. now right. }
        destruct (load_all l) as [[?|?] ol]; simpl in Hdl; [|discriminate].
        simpl. eauto.
      * exfalso. apply (H f e); [now left|].
        apply load_single_raises. now rewrite Ef.
Qed.

Lemma load_all_raises (l : list DirEntry) (e : Exception) :
  (load_all l).1 = Raises e
  <-> exists a f b,
        l = a ++ f :: b /\ stat_fails f e
        /\ (forall g e', In g a -> ~ stat_fails g e').
Proof.
  induction l as [|f l IH].
  - split; [discriminate | intros ([|? ?] & ? & ? & ? & _); discriminate].
  - rewrite load_all_cons.
    destruct (load_all [f]) as [[df|e0] o] eqn:Ef.
    + assert (Hok : forall e', ~ stat_fails f e').
      { intros e' Hs. apply load_single_raises in Hs. rewrite Ef in Hs.
        discriminate. }
      assert ((then_load (Returns df, o) (load_all l)).1 = Raises e
              <-> (load_all l).1 = Raises e) as ->.
      { destruct (load_all l) as [[?|?] ?]; simpl;
          split; intros H; try discriminate; exact H. }
      rewrite IH. split.
      * intros (a & g & b & -> & Hs & Ha). exists (f :: a), g, b.
        split; [reflexivity|]. split; [exact Hs|].
        intros g' e' [<- | Hg']; [apply Hok | now apply Ha].
      * intros ([|f' a] & g & b & Hl & Hs & Ha).
        -- injection Hl as <- <-. now apply Hok in Hs.
        -- injection Hl as <- ->. exists a, g, b.
           split; [reflexivity|]. split; [exact Hs|].
           intros g' e' Hg'. apply Ha. now right.
    + assert (Hs0 : stat_fails f e0)
        by (apply load_single_raises; now rewrite Ef).
      simpl. split.
      * intros [= <-]. exists [], f, l. split; [reflexivity|].
        split; [exact Hs0 | intros g e' []].
      * intros ([|f' a] & g & b & Hl & Hs & Ha).
        -- injection Hl as <- <-. destruct Hs0 as [_ H0], Hs as [_ H1].
           congruence.
        -- injection Hl as <- ->. exfalso. apply (Ha f e0); [now left | exact Hs0].
Qed.

(** X16. When the loop reaches its end, a document is in [all_docs]
    exactly when it was returned by the loader of an entry whose name
    ends in ".pdf" and whose size, which could be read, is at least
    1000 bytes: entries with another suffix, smaller files and files
    whose loader raises give nothing. *)
Theorem load_all_docs (l : list DirEntry) (all_docs : list Document)
    (d : Document) :
  (load_all l).1 = Returns all_docs ->
  (In d all_docs
   <-> exists f docs size,
         In f l
         /\ (exists stem, file f = stem ++ py ".pdf")
         /\ getsize f = Returns size
         /\ (1000 <= size)%N
         /\ PyPDFLoader_load f = Returns docs
         /\ In d docs).
Proof.
  intros H. rewrite (In_load_all l all_docs d H). unfold contributes.
  split.
  - intros (f & docs & Hf & (He & (size & Hs & Hn) & Hl) & Hd).
    apply endswith_spec in He. exists f, docs, size. tauto.
  - intros (f & docs & size & Hf & He & Hs & Hn & Hl & Hd).
    apply endswith_spec in He. exists f, docs. eauto 8.
Qed.

Lemma load_all_docs_witness :
  let page := {| page_content := py "Iron needs rise in pregnancy." |} in
  let good := {| file := py "a.pdf"; getsize := Returns 2048%N;
                 PyPDFLoader_load := Returns [page] |} in
  let small := {| file := py "b.pdf"; getsize := Returns 999%N;
                  PyPDFLoader_load := Returns [page] |} in
  exists f docs size,
    In f [small; good]
    /\ (exists stem, file f = stem ++ py ".pdf")
    /\ getsize f = Returns size
    /\ (1000 <= size)%N
    /\ PyPDFLoader_load f = Returns docs
    /\ In page docs.
Proof.
  intros page good small.
  apply (load_all_docs [small; good] [page] page).
  - vm_compute. reflexivity.
  - left. reflexivity.
Defined.

(** X17. How start-up goes without a saved index, on a directory that
    could be listed. An exception leaves it exactly when some entry
    named "....pdf" cannot have its size read, and it is the exception
    of the first such entry. It raises RuntimeError("No valid PDFs
    found.") exactly when every such size can be read and no entry
    yields a document. Otherwise the documents loaded, at least one,
    go on to the splitter and the index builder. When the directory
    cannot be listed the exception of [os.listdir] leaves it, and with
    a saved index the directory is not read at all. *)
Theorem load_or_build_outcome (l : list DirEntry) :
  let r := (load_or_build false (Returns l)).1 in
  (forall e,
     r = Uncaught e
     <-> exists a f b,
           l = a ++ f :: b
           /\ endswith (py ".pdf") (file f) = true /\ getsize f = Raises e
           /\ (forall g e', In g a ->
                 ~ (endswith (py ".pdf") (file g) = true
                    /\ getsize g = Raises e')))
  /\ (r = RuntimeError (py "No valid PDFs found.")
      <-> (forall f e, In f l ->
             ~ (endswith (py ".pdf") (file f) = true /\ getsize f = Raises e))
          /\ (forall f docs, In f l -> contributes f docs -> docs = []))
  /\ (forall all_docs,
        r = FromDocuments all_docs
        <-> (load_all l).1 = Returns all_docs /\ all_docs <> [])
  /\ (forall e, load_or_build false (Raises e) = (Uncaught e, []))
  /\ (forall listdir, load_or_build true listdir = (LoadLocal, [])).
Proof.
  intros r. subst r. unfold load_or_build. cbn [negb].
  split; [|split; [|split; [|split; reflexivity]]].
  - intros e.
    transitivity ((load_all l).1 = Raises e).
    + destruct (load_all l) as [[[|d ds]|e0] out]; simpl;
        split; intros H; try discriminate; congruence.
    + rewrite load_all_raises. unfold stat_fails.
      split; intros (a & f & b & H); exists a, f, b; tauto.
  - split.
    + intros H.
      destruct (load_all l) as [[[|d ds]|e0] out] eqn:E; try discriminate.
      split.
      * apply load_all_returns. exists []. now rewrite E.
      * intros f docs Hf Hc. destruct docs as [|d docs]; [reflexivity|].
        assert (In d []) as [].
        apply (In_load_all l [] d); [now rewrite E|].
        exists f, (d :: docs). simpl. auto.
    + intros [Hs Hc]. apply load_all_returns in Hs as [all_docs Ha].
      destruct (load_all l) as [[ds|e0] out] eqn:E; simpl in Ha;
        [|discriminate].
      injection Ha as ->. destruct all_docs as [|d ds]; [reflexivity|].
      exfalso.
      assert (In d (d :: ds)) as Hd by now left.
      apply (In_load_all l (d :: ds) d) in Hd; [|now rewrite E].
      destruct Hd as (f & docs & Hf & Hcf & Hd).
      rewrite (Hc f docs Hf Hcf) in Hd. destruct Hd.
  - intros all_docs.
    destruct (load_all l) as [[[|d ds]|e0] out]; simpl; split.
    + discriminate.
    + intros [[= <-] H]. contradiction.
    + intros [= <-]. split; [reflexivity | discriminate].
    + now intros [[= <-] _].
    + discriminate.
    + intros [H _]. discriminate.
Qed.

(** X18. A loader that raises is caught and costs only its own file,
    and so is skipping an entry with another suffix or of fewer than
    1000 bytes: with such an entry in the directory the loop gives the
    documents (or is left by the exception) it would give without
    it. *)
Theorem load_all_skips (a b : list DirEntry) (f : DirEntry) :
  endswith (py ".pdf") (file f) = false
  \/ (exists size,
        getsize f = Returns size
        /\ ((size < 1000)%N \/ exists e, PyPDFLoader_load f = Raises e)) ->
  (load_all (a ++ f :: b)).1 = (load_all (a ++ b)).1.
Proof.
  intros H.
  assert (exists out, load_all [f] = (Returns [], out)) as [out Hf].
  { unfold load_all. cbn [load_loop].
    destruct H as [-> | (size & -> & H)]; [simpl; eauto|].
    destruct (endswith (py ".pdf") (file f)); cbn [negb]; [|eauto].
    destruct (N.ltb_spec size 1000) as [Hlt|Hge]; [eauto|].
    destruct H as [H | [e ->]]; [lia | eauto]. }
  rewrite !load_all_app_eq, load_all_cons, Hf.
  destruct (load_all a) as [[da|ea] oa], (load_all b) as [[db|eb] ob];
    reflexivity.
Qed.

Lemma load_all_skips_witness :
  let page := {| page_content := py "Iron needs rise in pregnancy." |} in
  let good := {| file := py "a.pdf"; getsize := Returns 2048%N;
                 PyPDFLoader_load := Returns [page] |} in
  let broken := {| file := py "b.pdf"; getsize := Returns 4096%N;
                   PyPDFLoader_load := Raises (OtherException (py "not a PDF")) |} in
  (load_all [broken; good]).1 = Returns [page].
Proof.
  intros page good broken.
  pose proof (load_all_skips [] [good] broken) as H. cbn [app] in H.
  rewrite H.
  - vm_compute. reflexivity.
  - right. exists 4096%N. split; [reflexivity|]. right. eauto.
Defined.

(** X19. A size that cannot be read is not caught: at an entry named
    "....pdf" on which [os.path.getsize] raises, reached with the loop
    still running, the loop is left by that exception, the later
    entries are not read, and start-up ends with the exception, with
    neither RuntimeError nor an index, whatever was loaded before. *)
Theorem load_all_aborts (a b : list DirEntry) (f : DirEntry)
    (e : Exception) (docs_a : list Document) :
  (load_all a).1 = Returns docs_a ->
  endswith (py ".pdf") (file f) = true ->
  getsize f = Raises e ->
  load_all (a ++ f :: b) = (Raises e, (load_all a).2)
  /\ load_or_build false (Returns (a ++ f :: b))
     = (Uncaught e, (load_all a).2).
Proof.
  intros Ha He Hs.
  assert (load_all (a ++ f :: b) = (Raises e, (load_all a).2)) as H.
  { rewrite load_all_app_eq, load_all_cons.
    assert (load_all [f] = (Raises e, [])) as ->.
    { unfold load_all. cbn [load_loop]. now rewrite He, Hs. }
    destruct (load_all a) as [[da|ea] oa]; [|discriminate].
    simpl. now rewrite app_nil_r. }
  split; [exact H|].
  unfold load_or_build. cbn [negb]. now rewrite H.
Qed.

Lemma load_all_aborts_witness :
  let page := {| page_content := py "Iron needs rise in pregnancy." |} in
  let good := {| file := py "a.pdf"; getsize := Returns 2048%N;
                 PyPDFLoader_load := Returns [page] |} in
  let dangling := {| file := py "b.pdf";
                     getsize := Raises (OtherException (py "No such file"));
                     PyPDFLoader_load := Returns [page] |} in
  load_or_build false (Returns [good; dangling; good])
  = (Uncaught (OtherException (py "No such file")), [Loaded (py "a.pdf")]).
Proof.
  intros page good dangling.
  destruct (load_all_aborts [good] [good] dangling
              (OtherException (py "No such file")) [page]) as [_ H].
  - vm_compute. reflexivity.
  - vm_compute. reflexivity.
  - reflexivity.
  - exact H.
Defined.
